(** * The lazy method-resolution trampoline of oat/runtime/support_stubs.cc

    A shallow embedding of [UnresolvedDirectMethodTrampolineFromCode] in its
    two backends (the callee-save-frame backend for ARM and x86, and the
    ART_USE_LLVM_COMPILER backend), followed by the properties of the
    trampoline that the design document states.

    Conventions.
    - Pointers and [uintptr_t] words are integers ([Z]); [NULL] is 0.
    - The call state is a word-addressed view of memory: [mem s a] is the
      word stored at byte address [a].  Pointer arithmetic is written as in
      the source ([sp + 48], [regs[i]] = the word at [regs + 4 * i]).
    - The runtime objects the trampoline only talks to (class linker, method
      and class metadata, dex instructions) are the fields of the record
      [Collaborators]; the part of the runtime they may change (the thread's
      pending exception, class statuses, method code pointers) is the record
      [Runtime].
    - [LOG(FATAL)], [CHECK] and [UNIMPLEMENTED(FATAL)] abort the process;
      [DCHECK] aborts only in builds that enable debug checks.
    - Every call of a collaborator with an effect is recorded as an [Event],
      so that what a run did can be stated next to what it returned.
    - One thread at a time: a run sees the runtime change only through its
      own calls of [ResolveMethod] and [EnsureInitialized]. *)

From Stdlib Require Import ZArith List Bool Ascii String Lia Sorted.
Import ListNotations.
Local Open Scope list_scope.
Local Open Scope Z_scope.

(** ** Enumerations *)

(** [InvokeType] (invoke_type.h). *)
Inductive InvokeType : Type :=
| kStatic | kDirect | kVirtual | kSuper | kInterface.

Definition InvokeType_eqb (a b : InvokeType) : bool :=
  match a, b with
  | kStatic, kStatic | kDirect, kDirect | kVirtual, kVirtual
  | kSuper, kSuper | kInterface, kInterface => true
  | _, _ => false
  end.

(** [Runtime::TrampolineType].  The file names [kStaticMethod] and
    [kUnknownMethod]; [kOtherMethod] stands for every other enumerator, which
    the file treats alike (the else arm of its [?:]). *)
Inductive TrampolineType : Type :=
| kStaticMethod | kUnknownMethod | kOtherMethod.

Definition is_unknown (type : TrampolineType) : bool :=
  match type with kUnknownMethod => true | _ => false end.

(** [Instruction::Code]: the eight opcodes the switch names, and
    [OTHER_CODE n] for each remaining Dalvik opcode, by its number. *)
Inductive Code : Type :=
| INVOKE_DIRECT | INVOKE_DIRECT_RANGE
| INVOKE_STATIC | INVOKE_STATIC_RANGE
| INVOKE_SUPER | INVOKE_SUPER_RANGE
| INVOKE_VIRTUAL | INVOKE_VIRTUAL_RANGE
| OTHER_CODE (opcode : Z).

(** The three arms of [#if defined(__arm__) / #elif defined(__i386__) / #else]. *)
Inductive Arch : Type := arm | i386 | other_arch.

(** Modelled from the spec: [ClassInitState], "enum over Uninitialized,
    Initializing, Initialized, Erroneous" (the class status of object.h,
    which is not among the sources). *)
Inductive ClassInitState : Type :=
| Uninitialized | Initializing | Initialized | Erroneous.

Definition IsInitialized (s : ClassInitState) : bool :=
  match s with Initialized => true | _ => false end.

(** "Expect class to at least be initializing": true of an initialized
    class as well (the assertion of line 221 is reached with one). *)
Definition IsInitializing (s : ClassInitState) : bool :=
  match s with Initializing | Initialized => true | _ => false end.

Definition IsErroneous (s : ClassInitState) : bool :=
  match s with Erroneous => true | _ => false end.

(** ** State *)

Definition NULL : Z := 0.
Definition kPointerSize : Z := 4.

(** What the collaborators may change. *)
Record Runtime : Type := mkRuntime {
  exception_ : Z;                    (* Thread: the pending exception, or NULL *)
  status_ : Z -> ClassInitState;     (* Class: initialization state *)
  code_ : Z -> Z                     (* AbstractMethod::GetCode() *)
}.

Record State : Type := mkState {
  mem : Z -> Z;                      (* words of the call state, by address *)
  rt : Runtime;
  locals : list Z                    (* JNIEnvExt: the local reference table *)
}.

Definition IsExceptionPending (r : Runtime) : bool := negb (exception_ r =? NULL).
Definition GetException (r : Runtime) : Z := exception_ r.
Definition ClearException (r : Runtime) : Runtime :=
  mkRuntime NULL (status_ r) (code_ r).

(** The collaborators: everything the trampoline calls and this file does
    not define. *)
Record Collaborators : Type := mkCollaborators {
  (* Runtime::Current() *)
  GetFrameSizeInBytes : Z;           (* of GetCalleeSaveMethod(kRefsAndArgs) *)
  GetResolutionStubArray : TrampolineType -> Z;   (* ...->GetData() *)
  art_deliver_exception_from_code : Z;
  FinishCalleeSaveFrameSetup : Z -> (Z -> Z) -> (Z -> Z);
  (* Thread (LLVM backend): caller and dex pc of the current method *)
  GetCurrentMethod : Z * Z;
  (* AbstractMethod, MethodHelper, Instruction *)
  IsRuntimeMethod : Z -> bool;
  ToDexPc : Z -> Z -> Z;
  insns_size_in_code_units_ : Z -> Z;
  Opcode : Z -> Z -> Code;           (* of the caller's instruction at dex_pc *)
  vB : Z -> Z -> Z;
  GetDexMethodIndex : Z -> Z;
  GetShorty : Z -> string;
  CheckIncompatibleClassChange : Z -> InvokeType -> bool;
  GetDeclaringClass : Z -> Z;
  (* ClassLinker *)
  MethodShorty : Z -> Z -> string;
  ResolveMethod : Z -> Z -> InvokeType -> Runtime -> Z * Runtime;
  EnsureInitialized : Z -> Runtime -> Runtime;
  GetOatCodeFor : Z -> Z
}.

(** Build configuration: the target architecture and whether [DCHECK]s are
    compiled in. *)
Record Build : Type := mkBuild {
  target : Arch;
  kEnableDChecks : bool
}.

(** ** Effects *)

Inductive Event : Type :=
| AddLocalReference (obj : Z)
| CallResolveMethod (dex_method_idx caller : Z) (invoke_type : InvokeType)
| CallCheckIncompatibleClassChange (called : Z) (invoke_type : InvokeType)
| CallEnsureInitialized (klass : Z).

(** Why the process aborted. *)
Inductive Fatal : Type :=
| FrameSizeMismatch                (* DCHECK_EQ, lines 54 and 73 *)
| Unimplemented                    (* UNIMPLEMENTED(FATAL), line 78 *)
| RuntimeMethodExpectation         (* DCHECK, lines 99 and 132 *)
| DexPcOutOfRange                  (* CHECK_LT, line 102 *)
| UnexpectedCallIntoTrampoline     (* LOG(FATAL), line 123 *)
| IncompatibleClassChange          (* CHECK, line 194 *)
| ClassNotErroneous                (* DCHECK, line 210 *)
| ClassNotInitializing             (* DCHECK, line 221 *)
| InfiniteRecursion.               (* DCHECK, line 223 *)

Inductive Outcome (A : Type) : Type :=
| Returned (a : A) (s : State) (evs : list Event)
| Aborted (why : Fatal).
Arguments Returned {A} a s evs.
Arguments Aborted {A} why.

Definition M (A : Type) : Type := State -> Outcome A.

Definition ret {A} (a : A) : M A := fun s => Returned a s [].

Definition bind {A B} (m : M A) (f : A -> M B) : M B := fun s =>
  match m s with
  | Aborted why => Aborted why
  | Returned a s1 e1 =>
      match f a s1 with
      | Aborted why => Aborted why
      | Returned b s2 e2 => Returned b s2 (e1 ++ e2)
      end
  end.

Declare Scope tramp_scope.
Delimit Scope tramp_scope with tramp.
Notation "x <- m ;; k" := (bind m (fun x => k))
  (at level 61, m at next level, right associativity) : tramp_scope.
Notation "' p <- m ;; k" := (bind m (fun x => let p := x in k))
  (at level 61, p pattern, m at next level, right associativity) : tramp_scope.
Notation "m ;; k" := (bind m (fun _ => k))
  (at level 61, right associativity) : tramp_scope.
Local Open Scope tramp_scope.

Definition abort {A} (why : Fatal) : M A := fun _ => Aborted why.
Definition emit (e : Event) : M unit := fun s => Returned tt s [e].
Definition gets {A} (f : State -> A) : M A := fun s => Returned (f s) s [].
Definition modify (f : State -> State) : M unit := fun s => Returned tt (f s) [].

Definition CHECK (cond : bool) (why : Fatal) : M unit :=
  if cond then ret tt else abort why.

Definition load (a : Z) : M Z := gets (fun s => mem s a).

Definition store (a v : Z) : M unit :=
  modify (fun s => mkState (fun a' => if a' =? a then v else mem s a') (rt s) (locals s)).

Definition set_rt (r : Runtime) : M unit :=
  modify (fun s => mkState (mem s) r (locals s)).

(** [regs[i]]: the address of the i-th word above [regs]. *)
Definition idx (regs : Z) (i : nat) : Z := regs + kPointerSize * Z.of_nat i.

(** Modelled from the spec: [ScopedReference], "a temporary handle over an
    object argument ... guaranteed released when the trampoline's local scope
    closes (all exit paths)".  The classes behind it (ScopedObjectAccess and
    ScopedJniEnvLocalRefState of scoped_thread_state_change.h and
    jni_internal.h) are not among the sources: opening the scope remembers
    where the local reference table ends, registering a reference appends to
    the table, closing the scope cuts the table back to the remembered end. *)
Definition ScopedJniEnvLocalRefState_open : M nat :=
  gets (fun s => List.length (locals s)).

Definition ScopedJniEnvLocalRefState_close (cookie : nat) : M unit :=
  modify (fun s => mkState (mem s) (rt s) (firstn cookie (locals s))).

Definition soa_AddLocalReference (obj : Z) : M unit :=
  modify (fun s => mkState (mem s) (rt s) (locals s ++ [obj])) ;;
  emit (AddLocalReference obj).

(** ** The descriptor walk (lines 141-186)

    The shorty is walked as the list of its characters from index 1 on
    (index 0 is the return type); the loops that advance [shorty_index]
    up to [shorty_len] become recursions on what is left of that list.  The
    counters are [size_t] in the source and natural numbers here: an invoke
    instruction passes at most 255 argument words, so [cur_arg] stays far
    from the point where 32 bits would wrap around. *)

Definition is_wide (c : ascii) : bool := ((c =? "J") || (c =? "D"))%char.

(** [(c == 'J' || c == 'D' ? 2 : 1)] *)
Definition arg_words (c : ascii) : nat := if is_wide c then 2%nat else 1%nat.

(** Lines 143-151.  [tags] are the characters of the shorty from index 1 on. *)
Fixpoint count_args_in_regs (tags : list ascii) (args_in_regs : nat) : nat :=
  match tags with
  | [] => args_in_regs
  | c :: tags' =>
      let args_in_regs := (args_in_regs + arg_words c)%nat in
      if (3 <? args_in_regs)%nat then 3%nat
      else count_args_in_regs tags' args_in_regs
  end.

(** [if (c == 'L') { obj = regs[cur_arg]; soa.AddLocalReference(obj); }] *)
Definition scope_if_object (regs : Z) (c : ascii) (cur_arg : nat) : M unit :=
  if (c =? "L")%char then
    obj <- load (idx regs cur_arg) ;;
    soa_AddLocalReference obj
  else ret tt.

(** Lines 166-174: the arguments passed in registers.  Returns what is left
    of the shorty and [cur_arg]. *)
Fixpoint register_arguments (regs : Z) (args_in_regs : nat)
    (tags : list ascii) (cur_arg : nat) : M (list ascii * nat) :=
  match tags with
  | [] => ret ([], cur_arg)
  | c :: tags' =>
      if (cur_arg - 1 <? args_in_regs)%nat then
        scope_if_object regs c cur_arg ;;
        register_arguments regs args_in_regs tags' (cur_arg + arg_words c)%nat
      else ret (tags, cur_arg)
  end.

(** Lines 177-185: the arguments passed on the caller's stack. *)
Fixpoint stack_arguments (regs : Z) (tags : list ascii) (cur_arg : nat) : M unit :=
  match tags with
  | [] => ret tt
  | c :: tags' =>
      scope_if_object regs c cur_arg ;;
      stack_arguments regs tags' (cur_arg + arg_words c)%nat
  end.

(** Lines 153-162: the receiver of an instance call. *)
Definition scope_receiver (regs : Z) (invoke_type : InvokeType)
    (cur_arg args_in_regs : nat) : M (nat * nat) :=
  if negb (InvokeType_eqb invoke_type kStatic) then
    obj <- load (idx regs cur_arg) ;;
    let cur_arg := (cur_arg + 1)%nat in
    let args_in_regs :=
      if (args_in_regs <? 3)%nat then (args_in_regs + 1)%nat else args_in_regs in
    soa_AddLocalReference obj ;;
    ret (cur_arg, args_in_regs)
  else ret (cur_arg, args_in_regs).

Definition scope_references (regs : Z) (invoke_type : InvokeType)
    (shorty : string) : M unit :=
  let tags := tl (list_ascii_of_string shorty) in   (* index 0: the return type *)
  let args_in_regs := count_args_in_regs tags 0 in
  let cur_arg := 1%nat in        (* skip method_idx in R0, first arg is in R1 *)
  '(cur_arg, args_in_regs) <- scope_receiver regs invoke_type cur_arg args_in_regs ;;
  '(tags, cur_arg) <- register_arguments regs args_in_regs tags cur_arg ;;
  let cur_arg := (cur_arg + 11)%nat in
  stack_arguments regs tags cur_arg.

(** ** The trampoline *)

(** The switch of lines 105-125 (and 245-265). *)
Definition invoke_type_of_call_site (instr_code : Code) : M InvokeType :=
  match instr_code with
  | INVOKE_DIRECT | INVOKE_DIRECT_RANGE => ret kDirect
  | INVOKE_STATIC | INVOKE_STATIC_RANGE => ret kStatic
  | INVOKE_SUPER | INVOKE_SUPER_RANGE => ret kSuper
  | INVOKE_VIRTUAL | INVOKE_VIRTUAL_RANGE => ret kVirtual
  | OTHER_CODE _ => abort UnexpectedCallIntoTrampoline
  end.

Section Trampoline.

Variable env : Collaborators.
Variable cfg : Build.

Definition DCHECK (cond : bool) (why : Fatal) : M unit :=
  if kEnableDChecks cfg then CHECK cond why else ret tt.

(** Lines 38-82: caller_sp, regs and caller_pc. *)
Definition decode_call_state (sp : Z) : M (Z * Z * Z) :=
  match target cfg with
  | arm =>
      DCHECK (48 =? GetFrameSizeInBytes env) FrameSizeMismatch ;;
      let caller_sp := sp + 48 in
      let regs := sp + kPointerSize in
      caller_pc <- load (idx regs 10) ;;
      ret (caller_sp, regs, caller_pc)
  | i386 =>
      DCHECK (32 =? GetFrameSizeInBytes env) FrameSizeMismatch ;;
      let caller_sp := sp + 32 in
      let regs := sp in
      caller_pc <- load (idx regs 7) ;;
      ret (caller_sp, regs, caller_pc)
  | other_arch => abort Unimplemented
  end.

(** Lines 98-140 and 239-272: invoke type and method index. *)
Definition classify_invocation (type : TrampolineType)
    (called caller dex_pc : Z) : M (InvokeType * Z) :=
  if is_unknown type then
    DCHECK (IsRuntimeMethod env called) RuntimeMethodExpectation ;;
    CHECK (dex_pc <? insns_size_in_code_units_ env caller) DexPcOutOfRange ;;
    invoke_type <- invoke_type_of_call_site (Opcode env caller dex_pc) ;;
    let dex_method_idx := vB env caller dex_pc in
    ret (invoke_type, dex_method_idx)
  else
    DCHECK (negb (IsRuntimeMethod env called)) RuntimeMethodExpectation ;;
    let invoke_type := match type with kStaticMethod => kStatic | _ => kDirect end in
    let dex_method_idx := GetDexMethodIndex env called in
    ret (invoke_type, dex_method_idx).

(** Lines 129 and 136-138, compiled under [#if !defined(__i386__)]. *)
Definition discover_shorty (type : TrampolineType)
    (called caller dex_method_idx : Z) : string :=
  if is_unknown type then MethodShorty env dex_method_idx caller
  else GetShorty env called.

(** Lines 141-186, compiled under [#if !defined(__i386__)]. *)
Definition scope_arguments (regs : Z) (type : TrampolineType)
    (called caller dex_method_idx : Z) (invoke_type : InvokeType) : M unit :=
  match target cfg with
  | i386 => ret tt
  | _ => scope_references regs invoke_type
           (discover_shorty type called caller dex_method_idx)
  end.

(** Lines 187-190 and 273-275. *)
Definition resolve_method (type : TrampolineType)
    (called dex_method_idx caller : Z) (invoke_type : InvokeType) : M Z :=
  if is_unknown type then
    emit (CallResolveMethod dex_method_idx caller invoke_type) ;;
    r <- gets rt ;;
    let (called, r') := ResolveMethod env dex_method_idx caller invoke_type r in
    set_rt r' ;;
    ret called
  else ret called.

(** Lines 191-212. *)
Definition class_init_gate (called : Z) (invoke_type : InvokeType) : M Z :=
  r <- gets rt ;;
  if negb (IsExceptionPending r) then
    emit (CallCheckIncompatibleClassChange called invoke_type) ;;
    CHECK (negb (CheckIncompatibleClassChange env called invoke_type))
          IncompatibleClassChange ;;
    let called_class := GetDeclaringClass env called in
    emit (CallEnsureInitialized called_class) ;;
    set_rt (EnsureInitialized env called_class r) ;;
    r <- gets rt ;;
    if IsInitialized (status_ r called_class) then
      ret (code_ r called)
    else if IsInitializing (status_ r called_class) then
      if InvokeType_eqb invoke_type kStatic then
        ret (GetOatCodeFor env called)
      else
        ret (code_ r called)
    else
      DCHECK (IsErroneous (status_ r called_class)) ClassNotErroneous ;;
      ret NULL
  else ret NULL.

(** Lines 213-227. *)
Definition dispatch_outcome (regs called code : Z) : M Z :=
  if code =? NULL then
    r <- gets rt ;;
    store (idx regs 0) (GetException r) ;;
    set_rt (ClearException r) ;;
    ret (art_deliver_exception_from_code env)
  else
    r <- gets rt ;;
    DCHECK (IsInitializing (status_ r (GetDeclaringClass env called)))
           ClassNotInitializing ;;
    DCHECK (negb (code =? GetResolutionStubArray env kUnknownMethod))
           InfiniteRecursion ;;
    store (idx regs 0) called ;;
    ret code.

(** Lines 83-190: from the frame set-up to the resolved callee.  Returns the
    cookie of the local reference scope, the invoke type and the callee. *)
Definition resolve_target (called sp caller_sp regs caller_pc : Z)
    (type : TrampolineType) : M (nat * InvokeType * Z) :=
  modify (fun s => mkState (FinishCalleeSaveFrameSetup env sp (mem s)) (rt s) (locals s)) ;;
  env_state <- ScopedJniEnvLocalRefState_open ;;
  caller <- load caller_sp ;;
  '(invoke_type, dex_method_idx) <-
     classify_invocation type called caller (ToDexPc env caller caller_pc) ;;
  scope_arguments regs type called caller dex_method_idx invoke_type ;;
  called <- resolve_method type called dex_method_idx caller invoke_type ;;
  ret (env_state, invoke_type, called).

(** Lines 191-228: class initialization, outcome, end of the scope. *)
Definition enter_callee (regs : Z) (env_state : nat)
    (invoke_type : InvokeType) (called : Z) : M Z :=
  code <- class_init_gate called invoke_type ;;
  code <- dispatch_outcome regs called code ;;
  ScopedJniEnvLocalRefState_close env_state ;;
  ret code.

(** Lines 83-228. *)
Definition trampoline_body (called sp caller_sp regs caller_pc : Z)
    (type : TrampolineType) : M Z :=
  '(env_state, invoke_type, called) <-
     resolve_target called sp caller_sp regs caller_pc type ;;
  enter_callee regs env_state invoke_type called.

(** The backend of [#if !defined(ART_USE_LLVM_COMPILER)], lines 35-228. *)
Definition UnresolvedDirectMethodTrampolineFromCode (called sp : Z)
    (type : TrampolineType) : M Z :=
  '(caller_sp, regs, caller_pc) <- decode_call_state sp ;;
  trampoline_body called sp caller_sp regs caller_pc type.

(** *** The ART_USE_LLVM_COMPILER backend, lines 230-319 *)

(** "for lazy link": [if (code == NULL) code = linker->GetOatCodeFor(called)]. *)
Definition lazy_link (called code : Z) : Z :=
  if code =? NULL then GetOatCodeFor env called else code.

(** Lines 276-309. *)
Definition class_init_gate_llvm (called : Z) (invoke_type : InvokeType) : M Z :=
  r <- gets rt ;;
  if negb (IsExceptionPending r) then
    emit (CallCheckIncompatibleClassChange called invoke_type) ;;
    CHECK (negb (CheckIncompatibleClassChange env called invoke_type))
          IncompatibleClassChange ;;
    let called_class := GetDeclaringClass env called in
    emit (CallEnsureInitialized called_class) ;;
    set_rt (EnsureInitialized env called_class r) ;;
    r <- gets rt ;;
    if IsInitialized (status_ r called_class) then
      ret (lazy_link called (code_ r called))
    else if IsInitializing (status_ r called_class) then
      if InvokeType_eqb invoke_type kStatic then
        ret (GetOatCodeFor env called)
      else
        ret (lazy_link called (code_ r called))
    else
      DCHECK (IsErroneous (status_ r called_class)) ClassNotErroneous ;;
      ret NULL
  else ret NULL.

(** Lines 310-318. *)
Definition dispatch_outcome_llvm (called_addr called code : Z) : M Z :=
  if negb (code =? NULL) then
    r <- gets rt ;;
    DCHECK (IsInitializing (status_ r (GetDeclaringClass env called)))
           ClassNotInitializing ;;
    DCHECK (negb (code =? GetResolutionStubArray env kUnknownMethod))
           InfiniteRecursion ;;
    store called_addr called ;;
    ret code
  else ret code.

Definition UnresolvedDirectMethodTrampolineFromCode_llvm
    (called called_addr : Z) (type : TrampolineType) : M Z :=
  let (caller, dex_pc) := GetCurrentMethod env in
  '(invoke_type, dex_method_idx) <- classify_invocation type called caller dex_pc ;;
  called <- resolve_method type called dex_method_idx caller invoke_type ;;
  code <- class_init_gate_llvm called invoke_type ;;
  dispatch_outcome_llvm called_addr called code.

End Trampoline.

(** ** What a run did, read off its events *)

(** The objects handed to [AddLocalReference], in order. *)
Fixpoint registered (evs : list Event) : list Z :=
  match evs with
  | [] => []
  | AddLocalReference obj :: evs' => obj :: registered evs'
  | _ :: evs' => registered evs'
  end.

(** How many times the class linker was asked to resolve a method. *)
Fixpoint resolutions (evs : list Event) : nat :=
  match evs with
  | [] => 0%nat
  | CallResolveMethod _ _ _ :: evs' => S (resolutions evs')
  | _ :: evs' => resolutions evs'
  end.

(** The events other than reference registrations. *)
Fixpoint collaborations (evs : list Event) : list Event :=
  match evs with
  | [] => []
  | AddLocalReference _ :: evs' => collaborations evs'
  | e :: evs' => e :: collaborations evs'
  end.

(** An outcome with the reference registrations left out of its events. *)
Definition without_references {A} (o : Outcome A) : Outcome A :=
  match o with
  | Returned a s evs => Returned a s (collaborations evs)
  | Aborted why => Aborted why
  end.

(** The state with [refs] added to the local reference table. *)
Definition add_locals (s : State) (refs : list Z) : State :=
  mkState (mem s) (rt s) (locals s ++ refs).

(** The state with the runtime replaced by [r]. *)
Definition with_rt (s : State) (r : Runtime) : State :=
  mkState (mem s) r (locals s).

(** ** The descriptor walk as the design document words it

    "For each tag: if primitive, skip the appropriate number of words (two
    for 64-bit primitives, one otherwise); if object, read the word as an
    object reference and register a ScopedReference for it.  The walk spans
    two physically distinct argument regions, register-resident words first,
    then stack-resident words."

    Argument words are numbered from 1, the first word after the method
    slot.  The register capacity of the ARM convention is three words (R1 to
    R3, saved at [regs[1..3]]); word [k > 3] lives in the caller's frame at
    [caller_sp[k]], which is [regs[k + 11]]. *)

Definition register_capacity : nat := 3.

Definition argument_slot (k : nat) : nat :=
  if (k <=? register_capacity)%nat then k else (k + 11)%nat.

(** The numbers of the argument words that hold objects, for the tags
    [tags] whose first word is word [k]. *)
Fixpoint object_words (tags : list ascii) (k : nat) : list nat :=
  match tags with
  | [] => []
  | c :: tags' =>
      (if (c =? "L")%char then [k] else []) ++ object_words tags' (k + arg_words c)%nat
  end.

Definition argument_word (m : Z -> Z) (regs : Z) (k : nat) : Z :=
  m (idx regs (argument_slot k)).

Definition expected_references (m : Z -> Z) (regs : Z)
    (invoke_type : InvokeType) (shorty : string) : list Z :=
  let tags := tl (list_ascii_of_string shorty) in
  if InvokeType_eqb invoke_type kStatic then
    map (argument_word m regs) (object_words tags 1)
  else
    argument_word m regs 1 :: map (argument_word m regs) (object_words tags 2).

(** N: the number of object-typed parameters of a shorty. *)
Definition object_parameters (shorty : string) : nat :=
  List.length (filter (fun c => (c =? "L")%char) (tl (list_ascii_of_string shorty))).

(** Total number of argument words of the tags. *)
Fixpoint total_words (tags : list ascii) : nat :=
  match tags with
  | [] => 0%nat
  | c :: tags' => (arg_words c + total_words tags')%nat
  end.

(** The call-site opcodes and their invoke kinds, as the design document
    lists them. *)
Definition call_site_kinds : list (Code * InvokeType) :=
  [ (INVOKE_DIRECT, kDirect); (INVOKE_DIRECT_RANGE, kDirect);
    (INVOKE_STATIC, kStatic); (INVOKE_STATIC_RANGE, kStatic);
    (INVOKE_SUPER, kSuper); (INVOKE_SUPER_RANGE, kSuper);
    (INVOKE_VIRTUAL, kVirtual); (INVOKE_VIRTUAL_RANGE, kVirtual) ].

(** ** Auxiliary definitions for the proofs *)

(** The words a walk reads, as positions above [regs]. *)
Definition read_at (regs : Z) (s : State) (positions : list nat) : list Z :=
  map (fun k => mem s (idx regs k)) positions.

(** The register loop as a pure walk: the positions it reads, the tags it
    leaves and the value of [cur_arg] at its end. *)
Fixpoint register_walk (args_in_regs : nat) (tags : list ascii) (cur_arg : nat)
    : list nat * (list ascii * nat) :=
  match tags with
  | [] => ([], ([], cur_arg))
  | c :: tags' =>
      if (cur_arg - 1 <? args_in_regs)%nat then
        let (ps, rest) := register_walk args_in_regs tags' (cur_arg + arg_words c)%nat in
        ((if (c =? "L")%char then [cur_arg] else []) ++ ps, rest)
      else ([], (tags, cur_arg))
  end.

(** The positions above [regs] that [scope_references] reads, in order. *)
Definition scoped_positions (invoke_type : InvokeType) (shorty : string) : list nat :=
  let tags := tl (list_ascii_of_string shorty) in
  let args_in_regs := count_args_in_regs tags 0 in
  if negb (InvokeType_eqb invoke_type kStatic) then
    let args_in_regs :=
      if (args_in_regs <? 3)%nat then (args_in_regs + 1)%nat else args_in_regs in
    let (ps, rest) := register_walk args_in_regs tags 2 in
    1%nat :: ps ++ object_words (fst rest) (snd rest + 11)%nat
  else
    let (ps, rest) := register_walk args_in_regs tags 1 in
    ps ++ object_words (fst rest) (snd rest + 11)%nat.

(** The entry point the class-initialization gate selects, once the class
    has been through [EnsureInitialized] and the runtime is [r]. *)
Definition selected_code (env : Collaborators) (called : Z) (invoke_type : InvokeType) (r : Runtime) : Z :=
  let called_class := GetDeclaringClass env called in
  if IsInitialized (status_ r called_class) then code_ r called
  else if IsInitializing (status_ r called_class) then
    if InvokeType_eqb invoke_type kStatic then GetOatCodeFor env called
    else code_ r called
  else NULL.

(** The entry point the gate of the LLVM backend selects. *)
Definition selected_code_llvm (env : Collaborators) (called : Z)
    (invoke_type : InvokeType) (r : Runtime) : Z :=
  let called_class := GetDeclaringClass env called in
  if IsInitialized (status_ r called_class) then lazy_link env called (code_ r called)
  else if IsInitializing (status_ r called_class) then
    if InvokeType_eqb invoke_type kStatic then GetOatCodeFor env called
    else lazy_link env called (code_ r called)
  else NULL.

(** The registers of the call state, as [decode_call_state] places them. *)
Definition regs_of (cfg : Build) (sp : Z) : Z :=
  match target cfg with arm => sp + kPointerSize | _ => sp end.

(** The caller and the dex pc of the call site, as the callee-save-frame
    backend finds them (lines 55-57, 74-76, 91 and 100). *)
Definition call_site (env : Collaborators) (cfg : Build) (sp : Z) (s : State) : Z * Z :=
  let caller_sp := sp + match target cfg with arm => 48 | _ => 32 end in
  let caller_pc :=
    mem s (idx (regs_of cfg sp) (match target cfg with arm => 10 | _ => 7 end)) in
  let caller := FinishCalleeSaveFrameSetup env sp (mem s) caller_sp in
  (caller, ToDexPc env caller caller_pc).

(** The frame size and the position of the return address above [regs]
    that [decode_call_state] uses for a target. *)
Definition frame_size_of (a : Arch) : Z :=
  match a with arm => 48 | _ => 32 end.

Definition return_pc_slot (a : Arch) : nat :=
  match a with arm => 10%nat | _ => 7%nat end.

(** The references [scope_arguments] registers in a run of the
    callee-save-frame backend that started in [s]. *)
Definition scoped_arguments (env : Collaborators) (cfg : Build) (sp : Z)
    (type : TrampolineType) (called : Z) (s : State)
    (invoke_type : InvokeType) (dex_method_idx : Z) : list Z :=
  match target cfg with
  | i386 => []
  | _ => expected_references (FinishCalleeSaveFrameSetup env sp (mem s))
           (regs_of cfg sp) invoke_type
           (discover_shorty env type called (fst (call_site env cfg sp s))
              dex_method_idx)
  end.

(** The callee and the runtime after lines 187-190. *)
Definition resolved_callee (env : Collaborators) (type : TrampolineType)
    (called caller : Z) (invoke_type : InvokeType) (dex_method_idx : Z)
    (r : Runtime) : Z :=
  if is_unknown type
  then fst (ResolveMethod env dex_method_idx caller invoke_type r)
  else called.

Definition resolved_runtime (env : Collaborators) (type : TrampolineType)
    (caller : Z) (invoke_type : InvokeType) (dex_method_idx : Z)
    (r : Runtime) : Runtime :=
  if is_unknown type
  then snd (ResolveMethod env dex_method_idx caller invoke_type r)
  else r.

(** ** A concrete runtime, for running the model *)

Module Scenario.

Definition sp : Z := 0x1000.
Definition resolution_method : Z := 0x7100.   (* the runtime method of the stub *)
Definition the_caller : Z := 0x100.
Definition the_callee : Z := 0x200.
Definition the_class : Z := 0x300.
Definition resolution_stub : Z := 0x4000.
Definition deliver_exception : Z := 0x5000.
Definition oat_code : Z := 0x6000.
Definition resolution_error : Z := 0x9000.
Definition initialization_error : Z := 0x9100.

(** The caller's code: dex pc 3 is an invoke-virtual and dex pc 6 an
    invoke-static of method 5, dex pc 9 an invoke-virtual of the
    unresolvable method 99, everything else a return-void. *)
Definition env (frame_size : Z) : Collaborators := {|
  GetFrameSizeInBytes := frame_size;
  GetResolutionStubArray := fun type =>
    match type with
    | kUnknownMethod => resolution_stub
    | kStaticMethod => 0x4100
    | kOtherMethod => 0x4200
    end;
  art_deliver_exception_from_code := deliver_exception;
  FinishCalleeSaveFrameSetup := fun sp m a => if a =? sp then 0x7000 else m a;
  GetCurrentMethod := (the_caller, 9);
  IsRuntimeMethod := fun m => m =? resolution_method;
  ToDexPc := fun _ pc => (pc - 0x8000) / 2;
  insns_size_in_code_units_ := fun _ => 16;
  Opcode := fun _ dex_pc =>
    if dex_pc =? 3 then INVOKE_VIRTUAL
    else if dex_pc =? 6 then INVOKE_STATIC
    else if dex_pc =? 9 then INVOKE_VIRTUAL
    else OTHER_CODE 14;
  vB := fun _ dex_pc => if dex_pc =? 9 then 99 else 5;
  GetDexMethodIndex := fun _ => 5;
  GetShorty := fun _ => "VLIJL"%string;
  CheckIncompatibleClassChange := fun _ _ => false;
  GetDeclaringClass := fun _ => the_class;
  MethodShorty := fun _ _ => "VLIJL"%string;
  ResolveMethod := fun dex_method_idx _ _ r =>
    if dex_method_idx =? 5 then (the_callee, r)
    else (NULL, mkRuntime resolution_error (status_ r) (code_ r));
  EnsureInitialized := fun klass r =>
    match status_ r klass with
    | Uninitialized =>
        mkRuntime (exception_ r)
                  (fun k => if k =? klass then Initialized else status_ r k)
                  (code_ r)
    | Erroneous => mkRuntime initialization_error (status_ r) (code_ r)
    | _ => r
    end;
  GetOatCodeFor := fun _ => oat_code
|}.

(** A call state: the return address [pc] and the caller's method at the
    given addresses, and the word [0xB000 + a] at every other address [a]. *)
Definition call_state (pc_at caller_at pc : Z) : Z -> Z :=
  fun a => if a =? pc_at then pc
           else if a =? caller_at then the_caller
           else 0xB000 + a.

Definition arm_call_state (pc : Z) : Z -> Z := call_state (sp + 44) (sp + 48) pc.
Definition x86_call_state (pc : Z) : Z -> Z := call_state (sp + 28) (sp + 32) pc.

(** The runtime before the call: no pending exception, every class in
    state [st], every method with code pointer [code]. *)
Definition runtime (st : ClassInitState) (code : Z) : Runtime :=
  mkRuntime NULL (fun _ => st) (fun _ => code).

(** One local reference is open before the call. *)
Definition start (m : Z -> Z) (st : ClassInitState) (code : Z) : State :=
  mkState m (runtime st code) [0xA0].

Definition debug (a : Arch) : Build := mkBuild a true.
Definition release (a : Arch) : Build := mkBuild a false.

(** What a run returned, with the words of the call state that matter. *)
Record Observed : Type := mkObserved {
  entry : Z;
  method_slot : Z;              (* the word at [slot] after the call *)
  pending : Z;                  (* the thread's exception after the call *)
  class_state : ClassInitState;
  open_locals : list Z;
  references : list Z;          (* the objects registered during the call *)
  resolved : nat                (* calls of ResolveMethod *)
}.

Definition observe (slot : Z) (o : Outcome Z) : option Observed :=
  match o with
  | Returned code s evs =>
      Some (mkObserved code (mem s slot) (exception_ (rt s))
              (status_ (rt s) the_class) (locals s) (registered evs) (resolutions evs))
  | Aborted _ => None
  end.

Definition returned_value (o : Outcome Z) : Z :=
  match o with Returned code _ _ => code | Aborted _ => NULL end.

Definition returned_state (o : Outcome Z) : State :=
  match o with
  | Returned _ s _ => s
  | Aborted _ => mkState (fun _ => 0) (runtime Uninitialized NULL) []
  end.

Definition returned_events (o : Outcome Z) : list Event :=
  match o with Returned _ _ evs => evs | Aborted _ => [] end.

End Scenario.

(** Variants of the concrete runtime. *)
Module Variants.

(** The runtime of [Scenario.env] in which the methods are instance
    methods: invoking one as static is an incompatible class change. *)
Definition instance_methods (frame_size : Z) : Collaborators :=
  let env := Scenario.env frame_size in {|
  GetFrameSizeInBytes := GetFrameSizeInBytes env;
  GetResolutionStubArray := GetResolutionStubArray env;
  art_deliver_exception_from_code := art_deliver_exception_from_code env;
  FinishCalleeSaveFrameSetup := FinishCalleeSaveFrameSetup env;
  GetCurrentMethod := GetCurrentMethod env;
  IsRuntimeMethod := IsRuntimeMethod env;
  ToDexPc := ToDexPc env;
  insns_size_in_code_units_ := insns_size_in_code_units_ env;
  Opcode := Opcode env;
  vB := vB env;
  GetDexMethodIndex := GetDexMethodIndex env;
  GetShorty := GetShorty env;
  CheckIncompatibleClassChange := fun _ invoke_type => InvokeType_eqb invoke_type kStatic;
  GetDeclaringClass := GetDeclaringClass env;
  MethodShorty := MethodShorty env;
  ResolveMethod := ResolveMethod env;
  EnsureInitialized := EnsureInitialized env;
  GetOatCodeFor := GetOatCodeFor env
|}.

End Variants.

(** * Properties *)

(** ** The monad *)

Lemma bind_Returned {A B} (m : M A) (f : A -> M B) s b s' evs :
  bind m f s = Returned b s' evs ->
  exists a s1 e1 e2,
    m s = Returned a s1 e1 /\ f a s1 = Returned b s' e2 /\ evs = e1 ++ e2.
Proof.
  unfold bind. destruct (m s) as [a s1 e1|]; [|discriminate].
  destruct (f a s1) as [b' s2 e2|] eqn:Hf; [|discriminate].
  intros H. injection H as <- <- <-. now exists a, s1, e1, e2.
Qed.

Lemma bind_Returned_intro {A B} (m : M A) (f : A -> M B) s a s1 e1 :
  m s = Returned a s1 e1 ->
  bind m f s =
    match f a s1 with
    | Returned b s2 e2 => Returned b s2 (e1 ++ e2)
    | Aborted why => Aborted why
    end.
Proof. unfold bind. now intros ->. Qed.

Lemma bind_Aborted {A B} (m : M A) (f : A -> M B) s why :
  m s = Aborted why -> bind m f s = Aborted why.
Proof. unfold bind. now intros ->. Qed.

Lemma add_locals_nil s : add_locals s [] = s.
Proof. destruct s. unfold add_locals. simpl. now rewrite app_nil_r. Qed.

Lemma add_locals_app s a b : add_locals (add_locals s a) b = add_locals s (a ++ b).
Proof. unfold add_locals. simpl. now rewrite app_assoc. Qed.

Lemma registered_app a b : registered (a ++ b) = registered a ++ registered b.
Proof.
  induction a as [|e a IH]; simpl; [reflexivity|].
  destruct e; simpl; now rewrite IH.
Qed.

Lemma registered_references refs : registered (map AddLocalReference refs) = refs.
Proof. induction refs; simpl; congruence. Qed.



Lemma collaborations_app a b :
  collaborations (a ++ b) = collaborations a ++ collaborations b.
Proof.
  induction a as [|e a IH]; simpl; [reflexivity|].
  destruct e; simpl; now rewrite IH.
Qed.

Lemma collaborations_references refs : collaborations (map AddLocalReference refs) = [].
Proof. induction refs; simpl; congruence. Qed.

(** ** The descriptor walk *)

Section Walk.

Local Open Scope nat_scope.

Variable regs : Z.

Lemma read_at_add_locals s refs positions :
  read_at regs (add_locals s refs) positions = read_at regs s positions.
Proof. reflexivity. Qed.

Lemma arg_words_pos c : 1 <= arg_words c <= 2.
Proof. unfold arg_words. destruct (is_wide c); lia. Qed.

Lemma scope_if_object_run c k s :
  let positions := if (c =? "L")%char then [k] else [] in
  scope_if_object regs c k s =
    Returned tt (add_locals s (read_at regs s positions))
             (map AddLocalReference (read_at regs s positions)).
Proof.
  unfold scope_if_object. destruct (c =? "L")%char; simpl.
  - reflexivity.
  - unfold ret. now rewrite add_locals_nil.
Qed.

Lemma stack_arguments_run tags : forall k s,
  stack_arguments regs tags k s =
    Returned tt (add_locals s (read_at regs s (object_words tags k)))
             (map AddLocalReference (read_at regs s (object_words tags k))).
Proof.
  induction tags as [|c tags IH]; intros k s; simpl.
  - unfold ret. now rewrite add_locals_nil.
  - rewrite (bind_Returned_intro _ _ _ _ _ _ (scope_if_object_run c k s)).
    rewrite IH, add_locals_app, read_at_add_locals.
    unfold read_at. now rewrite !map_app.
Qed.

Lemma register_arguments_run args_in_regs tags : forall k s,
  let (ps, rest) := register_walk args_in_regs tags k in
  register_arguments regs args_in_regs tags k s =
    Returned rest (add_locals s (read_at regs s ps)) (map AddLocalReference (read_at regs s ps)).
Proof.
  induction tags as [|c tags IH]; intros k s; simpl.
  - unfold ret. now rewrite add_locals_nil.
  - destruct (k - 1 <? args_in_regs).
    + specialize (IH (k + arg_words c)
                     (add_locals s (read_at regs s (if (c =? "L")%char then [k] else [])))).
      destruct (register_walk args_in_regs tags (k + arg_words c)) as [ps rest].
      rewrite (bind_Returned_intro _ _ _ _ _ _ (scope_if_object_run c k s)).
      rewrite IH, add_locals_app, read_at_add_locals.
      unfold read_at. now rewrite !map_app.
    + unfold ret. now rewrite add_locals_nil.
Qed.

Lemma count_args_in_regs_min tags : forall a,
  a <= 3 -> count_args_in_regs tags a = Nat.min 3 (a + total_words tags).
Proof.
  induction tags as [|c tags IH]; intros a Ha;
    cbn [count_args_in_regs total_words].
  - lia.
  - pose proof (arg_words_pos c).
    destruct (3 <? a + arg_words c) eqn:E.
    + apply Nat.ltb_lt in E. lia.
    + apply Nat.ltb_ge in E. rewrite IH by lia. lia.
Qed.

Lemma object_words_shift tags : forall k d,
  object_words tags (k + d) = map (fun w => w + d) (object_words tags k).
Proof.
  induction tags as [|c tags IH]; intros k d; simpl; [reflexivity|].
  rewrite map_app. f_equal.
  - now destruct (c =? "L")%char.
  - rewrite <- IH. f_equal. lia.
Qed.

Lemma object_words_ge tags : forall k w, In w (object_words tags k) -> k <= w.
Proof.
  induction tags as [|c tags IH]; intros k w; simpl; [tauto|].
  rewrite in_app_iff. intros [H|H].
  - destruct (c =? "L")%char; simpl in H; [lia|tauto].
  - apply IH in H. lia.
Qed.

Lemma stack_words_slots tags k :
  4 <= k ->
  object_words tags (k + 11) = map argument_slot (object_words tags k).
Proof.
  intros Hk. rewrite object_words_shift. apply map_ext_in.
  intros w Hw. apply object_words_ge in Hw.
  unfold argument_slot, register_capacity.
  destruct (w <=? 3) eqn:E; [apply Nat.leb_le in E; lia|reflexivity].
Qed.

(** The positions read by the register loop followed by the stack loop are
    the slots of the object words, provided [args_in_regs] is what lines
    143-160 compute: the register capacity, or else all the words there are. *)
Lemma walk_slots args_in_regs tags : forall k,
  1 <= k ->
  args_in_regs = 3 \/ k - 1 + total_words tags = args_in_regs /\ args_in_regs <= 3 ->
  let (ps, rest) := register_walk args_in_regs tags k in
  ps ++ object_words (fst rest) (snd rest + 11) = map argument_slot (object_words tags k).
Proof.
  induction tags as [|c tags IH]; intros k Hk Hinv; simpl; [reflexivity|].
  pose proof (arg_words_pos c) as Hc.
  destruct (k - 1 <? args_in_regs) eqn:E.
  - apply Nat.ltb_lt in E.
    specialize (IH (k + arg_words c)).
    destruct (register_walk args_in_regs tags (k + arg_words c)) as [ps rest].
    rewrite <- app_assoc, IH, map_app by (simpl in Hinv; lia).
    f_equal. destruct (c =? "L")%char; [|reflexivity].
    simpl. unfold argument_slot, register_capacity.
    destruct (k <=? 3) eqn:E3; [reflexivity|apply Nat.leb_gt in E3; lia].
  - apply Nat.ltb_ge in E. simpl.
    change ((if (c =? "L")%char then [k + 11] else []) ++
            object_words tags (k + 11 + arg_words c))
      with (object_words (c :: tags) (k + 11)).
    rewrite stack_words_slots; [reflexivity|]. simpl in Hinv. lia.
Qed.

Lemma object_words_length tags : forall k,
  List.length (object_words tags k) =
  List.length (filter (fun c => (c =? "L")%char) tags).
Proof.
  induction tags as [|c tags IH]; intros k; simpl; [reflexivity|].
  rewrite length_app, IH. now destruct (c =? "L")%char.
Qed.

End Walk.
Lemma scope_references_run regs invoke_type shorty s :
  let refs := read_at regs s (scoped_positions invoke_type shorty) in
  scope_references regs invoke_type shorty s =
    Returned tt (add_locals s refs) (map AddLocalReference refs).
Proof.
  unfold scope_references, scoped_positions, scope_receiver.
  set (tags := tl (list_ascii_of_string shorty)).
  set (air := count_args_in_regs tags 0).
  destruct (negb (InvokeType_eqb invoke_type kStatic)).
  - set (air' := if (air <? 3)%nat then (air + 1)%nat else air).
    pose proof (register_arguments_run regs air' tags 2
                  (add_locals s [mem s (idx regs 1)])) as Hreg.
    destruct (register_walk air' tags 2) as [ps [rest k']].
    cbn [bind load gets soa_AddLocalReference modify emit ret app fst snd].
    change (mkState (mem s) (rt s) (locals s ++ [mem s (idx regs 1)]))
      with (add_locals s [mem s (idx regs 1)]).
    cbv zeta. change (1 + 1)%nat with 2%nat.
    rewrite (bind_Returned_intro _ _ _ _ _ _ Hreg).
    rewrite stack_arguments_run, !add_locals_app.
    rewrite !read_at_add_locals. unfold read_at.
    cbn [map app]. now rewrite !map_app.
  - pose proof (register_arguments_run regs air tags 1 s) as Hreg.
    destruct (register_walk air tags 1) as [ps [rest k']].
    cbn [bind ret app fst snd]. cbv zeta.
    rewrite (bind_Returned_intro _ _ _ _ _ _ Hreg).
    rewrite stack_arguments_run, !add_locals_app.
    rewrite !read_at_add_locals. unfold read_at.
    now rewrite !map_app.
Qed.

Lemma scoped_positions_slots invoke_type shorty :
  let tags := tl (list_ascii_of_string shorty) in
  scoped_positions invoke_type shorty =
    if InvokeType_eqb invoke_type kStatic then
      map argument_slot (object_words tags 1)
    else
      argument_slot 1 :: map argument_slot (object_words tags 2).
Proof.
  unfold scoped_positions.
  set (tags := tl (list_ascii_of_string shorty)). cbv zeta.
  rewrite (count_args_in_regs_min tags 0) by lia.
  destruct (InvokeType_eqb invoke_type kStatic); cbn [negb].
  - pose proof (walk_slots (Nat.min 3 (0 + total_words tags)) tags 1) as H.
    destruct (register_walk _ tags 1) as [ps rest]. apply H; lia.
  - set (air := Nat.min 3 (0 + total_words tags)).
    set (air' := if (air <? 3)%nat then (air + 1)%nat else air).
    pose proof (walk_slots air' tags 2) as H.
    destruct (register_walk air' tags 2) as [ps rest].
    change (argument_slot 1) with 1%nat. f_equal. apply H; [lia|].
    subst air' air. destruct (Nat.min 3 (0 + total_words tags) <? 3)%nat eqn:E.
    + apply Nat.ltb_lt in E. lia.
    + apply Nat.ltb_ge in E. lia.
Qed.

Lemma scope_references_expected regs invoke_type shorty s :
  let refs := expected_references (mem s) regs invoke_type shorty in
  scope_references regs invoke_type shorty s =
    Returned tt (add_locals s refs) (map AddLocalReference refs).
Proof.
  intros refs.
  assert (Hrefs : refs = read_at regs s (scoped_positions invoke_type shorty)).
  { subst refs. unfold expected_references, read_at.
    rewrite scoped_positions_slots.
    destruct (InvokeType_eqb invoke_type kStatic); cbn [map];
      now rewrite ?map_map. }
  rewrite Hrefs. apply scope_references_run.
Qed.

Lemma expected_references_length m regs invoke_type shorty :
  List.length (expected_references m regs invoke_type shorty) =
    (object_parameters shorty +
     if InvokeType_eqb invoke_type kStatic then 0 else 1)%nat.
Proof.
  unfold expected_references, object_parameters.
  destruct (InvokeType_eqb invoke_type kStatic); cbn [List.length];
    rewrite length_map, object_words_length; lia.
Qed.

(** The walk on two shorties, with the word [0xB000 + a] at address [a] and
    [regs] at 0x1004.  Static (I, I, J, L): the long takes R3 and the first
    stack word, the object is word 5, at [regs[16]].  Virtual (L, I, J, L):
    receiver in R1, first object in R2, the last one is word 6. *)
Example walk_static_IIJL :
  registered
    (Scenario.returned_events
       (bind (scope_references 0x1004 kStatic "VIIJL") (fun _ => ret 0)
             (Scenario.start (fun a => 0xB000 + a) Initialized 0)))
  = [0xB000 + 0x1004 + 4 * 16].
Proof. reflexivity. Qed.

Example walk_virtual_LIJL :
  registered
    (Scenario.returned_events
       (bind (scope_references 0x1004 kVirtual "VLIJL") (fun _ => ret 0)
             (Scenario.start (fun a => 0xB000 + a) Initialized 0)))
  = [0xB000 + 0x1004 + 4 * 1; 0xB000 + 0x1004 + 4 * 2; 0xB000 + 0x1004 + 4 * 17].
Proof. reflexivity. Qed.

(** C5.  For every shorty, the reference-scoping walk registers one scoped
    reference per object-typed parameter (after the receiver's, for an
    invoke type other than static), and nothing else: the references are the
    argument words the descriptor assigns to the object parameters, counting
    two words for J and D and one for every other tag, the first three words
    in the saved registers and the later ones in the caller's frame. *)
Theorem scope_references_registers_object_arguments :
  forall (regs : Z) (invoke_type : InvokeType) (shorty : string) (s : State),
    let refs := expected_references (mem s) regs invoke_type shorty in
    scope_references regs invoke_type shorty s =
      Returned tt (add_locals s refs) (map AddLocalReference refs)
    /\ List.length refs =
       (object_parameters shorty +
        if InvokeType_eqb invoke_type kStatic then 0 else 1)%nat.
Proof.
  intros regs invoke_type shorty s refs. split.
  - apply scope_references_expected.
  - apply expected_references_length.
Qed.

(** ** The phases of the trampoline, one by one *)

Ltac run :=
  cbv [bind ret abort emit gets modify load store set_rt CHECK DCHECK].

Section Phases.

Variable env : Collaborators.
Variable cfg : Build.

Lemma decode_call_state_inv sp s x s' evs :
  decode_call_state env cfg sp s = Returned x s' evs ->
  s' = s /\ evs = [] /\
  match target cfg with
  | arm => x = (sp + 48, sp + kPointerSize, mem s (idx (sp + kPointerSize) 10))
  | i386 => x = (sp + 32, sp, mem s (idx sp 7))
  | other_arch => False
  end.
Proof.
  unfold decode_call_state. run.
  destruct (target cfg), (kEnableDChecks cfg);
    try destruct (_ =? GetFrameSizeInBytes env);
    intros H; try discriminate; injection H as <- <- <-; auto.
Qed.

(** The classifier reads no state and has no effect: it aborts or returns
    the same pair from every state. *)
Lemma classify_invocation_inv type called caller dex_pc s x s' evs :
  classify_invocation env cfg type called caller dex_pc s = Returned x s' evs ->
  s' = s /\ evs = [] /\
  forall s0, classify_invocation env cfg type called caller dex_pc s0 = Returned x s0 [].
Proof.
  unfold classify_invocation, invoke_type_of_call_site. run.
  destruct (is_unknown type), (kEnableDChecks cfg);
    try destruct (IsRuntimeMethod env called); cbn [negb];
    try destruct (dex_pc <? _);
    try destruct (Opcode env caller dex_pc);
    intros H; try discriminate; injection H as <- <- <-; auto.
Qed.

Lemma classify_invocation_Aborted type called caller dex_pc s why :
  classify_invocation env cfg type called caller dex_pc s = Aborted why ->
  forall s0, classify_invocation env cfg type called caller dex_pc s0 = Aborted why.
Proof.
  unfold classify_invocation, invoke_type_of_call_site. run.
  destruct (is_unknown type), (kEnableDChecks cfg);
    try destruct (IsRuntimeMethod env called); cbn [negb];
    try destruct (dex_pc <? _);
    try destruct (Opcode env caller dex_pc);
    intros H; try discriminate; injection H as <-; auto.
Qed.

Lemma scope_arguments_run regs type called caller dex_method_idx invoke_type s :
  let refs :=
    match target cfg with
    | i386 => []
    | _ => expected_references (mem s) regs invoke_type
             (discover_shorty env type called caller dex_method_idx)
    end in
  scope_arguments env cfg regs type called caller dex_method_idx invoke_type s =
    Returned tt (add_locals s refs) (map AddLocalReference refs).
Proof.
  unfold scope_arguments.
  destruct (target cfg); cbv zeta;
    try apply scope_references_expected.
  unfold ret. now rewrite add_locals_nil.
Qed.

Lemma resolve_method_run type called dex_method_idx caller invoke_type s :
  resolve_method env type called dex_method_idx caller invoke_type s =
    if is_unknown type then
      Returned (fst (ResolveMethod env dex_method_idx caller invoke_type (rt s)))
               (with_rt s (snd (ResolveMethod env dex_method_idx caller invoke_type (rt s))))
               [CallResolveMethod dex_method_idx caller invoke_type]
    else Returned called s [].
Proof.
  unfold resolve_method. destruct (is_unknown type); [|reflexivity].
  run. now destruct (ResolveMethod env dex_method_idx caller invoke_type (rt s)).
Qed.

Lemma class_init_gate_run called invoke_type s :
  class_init_gate env cfg called invoke_type s =
    if IsExceptionPending (rt s) then Returned NULL s []
    else if CheckIncompatibleClassChange env called invoke_type
    then Aborted IncompatibleClassChange
    else
      let called_class := GetDeclaringClass env called in
      let r := EnsureInitialized env called_class (rt s) in
      if kEnableDChecks cfg && negb (IsInitializing (status_ r called_class))
                             && negb (IsErroneous (status_ r called_class))
      then Aborted ClassNotErroneous
      else Returned (selected_code env called invoke_type r) (with_rt s r)
             [CallCheckIncompatibleClassChange called invoke_type;
              CallEnsureInitialized called_class].
Proof.
  unfold class_init_gate, selected_code. run.
  destruct (IsExceptionPending (rt s)); cbn [negb]; [reflexivity|].
  destruct (CheckIncompatibleClassChange env called invoke_type); cbn [negb];
    [reflexivity|].
  cbn [rt mem locals]. unfold with_rt.
  destruct (status_ _ _), (kEnableDChecks cfg), (InvokeType_eqb invoke_type kStatic);
    reflexivity.
Qed.

End Phases.
Section Callee.

Variable env : Collaborators.
Variable cfg : Build.

Lemma dispatch_outcome_run regs called code s :
  dispatch_outcome env cfg regs called code s =
    if code =? NULL then
      Returned (art_deliver_exception_from_code env)
        (mkState (fun a => if a =? idx regs 0 then GetException (rt s) else mem s a)
                 (ClearException (rt s)) (locals s)) []
    else if kEnableDChecks cfg &&
            negb (IsInitializing (status_ (rt s) (GetDeclaringClass env called)))
    then Aborted ClassNotInitializing
    else if kEnableDChecks cfg && (code =? GetResolutionStubArray env kUnknownMethod)
    then Aborted InfiniteRecursion
    else
      Returned code
        (mkState (fun a => if a =? idx regs 0 then called else mem s a)
                 (rt s) (locals s)) [].
Proof.
  unfold dispatch_outcome. run.
  destruct (code =? NULL); [reflexivity|].
  destruct (kEnableDChecks cfg); cbn [andb]; [|reflexivity].
  destruct (IsInitializing _); cbn [negb]; [|reflexivity].
  destruct (code =? GetResolutionStubArray env kUnknownMethod); reflexivity.
Qed.

Lemma enter_callee_unfold regs env_state invoke_type called s :
  enter_callee env cfg regs env_state invoke_type called s =
    match class_init_gate env cfg called invoke_type s with
    | Aborted why => Aborted why
    | Returned code0 s1 e1 =>
        match dispatch_outcome env cfg regs called code0 s1 with
        | Aborted why => Aborted why
        | Returned code s2 e2 =>
            Returned code
              (mkState (mem s2) (rt s2) (firstn env_state (locals s2)))
              (e1 ++ e2 ++ [])
        end
    end.
Proof.
  unfold enter_callee. cbv [bind].
  destruct (class_init_gate env cfg called invoke_type s) as [code0 s1 e1|];
    [|reflexivity].
  destruct (dispatch_outcome env cfg regs called code0 s1) as [code s2 e2|];
    reflexivity.
Qed.

End Callee.

(** ** The class-initialization gate and the outcome, lines 191-228 *)

(** Lines 191-228 on a class that is Initializing after
    [EnsureInitialized]. *)
Lemma enter_callee_initializing :
  forall env cfg regs env_state invoke_type called s,
    let called_class := GetDeclaringClass env called in
    let r := EnsureInitialized env called_class (rt s) in
    let entry :=
      if InvokeType_eqb invoke_type kStatic then GetOatCodeFor env called
      else code_ r called in
    IsExceptionPending (rt s) = false ->
    CheckIncompatibleClassChange env called invoke_type = false ->
    status_ r called_class = Initializing ->
    entry <> NULL ->
    (kEnableDChecks cfg = true -> entry <> GetResolutionStubArray env kUnknownMethod) ->
    exists s',
      enter_callee env cfg regs env_state invoke_type called s =
        Returned entry s'
          [CallCheckIncompatibleClassChange called invoke_type;
           CallEnsureInitialized called_class] /\
      rt s' = r /\ mem s' (idx regs 0) = called.
Proof.
  intros env cfg regs env_state invoke_type called s called_class r entry
         Hpending Hicc Hstatus Hentry Hstub.
  assert (Hsel : selected_code env called invoke_type r = entry).
  { unfold selected_code. fold called_class. now rewrite Hstatus. }
  assert (Hok : kEnableDChecks cfg && (entry =? GetResolutionStubArray env kUnknownMethod)
                = false).
  { destruct (kEnableDChecks cfg); [|reflexivity]. cbn [andb].
    apply Z.eqb_neq. now apply Hstub. }
  apply Z.eqb_neq in Hentry.
  exists (mkState (fun a => if a =? idx regs 0 then called else mem s a) r
                  (firstn env_state (locals s))).
  split; [|cbn [rt mem]; now rewrite Z.eqb_refl].
  rewrite enter_callee_unfold, class_init_gate_run, Hpending, Hicc.
  fold called_class. cbv zeta. fold r. rewrite Hstatus, Hsel.
  cbn [IsInitializing IsErroneous negb andb]. rewrite andb_false_r.
  cbn [andb]. rewrite dispatch_outcome_run, Hentry.
  cbn [with_rt rt mem locals]. fold called_class. rewrite Hstatus.
  cbn [IsInitializing negb]. rewrite andb_false_r, Hok. reflexivity.
Qed.

(** Lines 191-228 with an exception pending, or on an Erroneous class. *)
Lemma enter_callee_delivers :
  forall env cfg regs env_state invoke_type called s,
    let called_class := GetDeclaringClass env called in
    let r := if IsExceptionPending (rt s) then rt s
             else EnsureInitialized env called_class (rt s) in
    IsExceptionPending (rt s) = true \/
    CheckIncompatibleClassChange env called invoke_type = false /\
    status_ r called_class = Erroneous ->
    exists s' evs,
      enter_callee env cfg regs env_state invoke_type called s =
        Returned (art_deliver_exception_from_code env) s' evs /\
      mem s' (idx regs 0) = GetException r /\
      rt s' = ClearException r /\
      IsExceptionPending (rt s') = false.
Proof.
  intros env cfg regs env_state invoke_type called s called_class r H.
  set (s' := mkState (fun a => if a =? idx regs 0 then GetException r else mem s a)
                     (ClearException r) (firstn env_state (locals s))).
  assert (Hrun : exists evs,
    enter_callee env cfg regs env_state invoke_type called s =
      Returned (art_deliver_exception_from_code env) s' evs).
  { rewrite enter_callee_unfold, class_init_gate_run.
    subst s' r. destruct (IsExceptionPending (rt s)) eqn:Hpending.
    - rewrite dispatch_outcome_run. cbn [Z.eqb NULL]. now eexists.
    - destruct H as [H|[Hicc Hstatus]]; [discriminate|].
      rewrite Hicc. fold called_class. cbv zeta. rewrite Hstatus.
      cbn [IsInitializing IsErroneous negb andb]. rewrite andb_false_r.
      unfold selected_code. fold called_class. rewrite Hstatus.
      cbn [IsInitialized IsInitializing]. rewrite dispatch_outcome_run.
      cbn [Z.eqb NULL with_rt rt mem locals]. now eexists. }
  destruct Hrun as [evs Hrun]. exists s', evs.
  split; [exact Hrun|]. subst s'. cbn [mem rt]. now rewrite Z.eqb_refl.
Qed.

(** ** Whole runs *)

Section Runs.

Variable env : Collaborators.
Variable cfg : Build.

(** What [enter_callee] leaves behind, whenever it returns. *)
Lemma enter_callee_inv regs env_state invoke_type called s code s' evs :
  enter_callee env cfg regs env_state invoke_type called s = Returned code s' evs ->
  locals s' = firstn env_state (locals s) /\
  evs = (if IsExceptionPending (rt s) then []
         else [CallCheckIncompatibleClassChange called invoke_type;
               CallEnsureInitialized (GetDeclaringClass env called)]) /\
  (code <> art_deliver_exception_from_code env ->
   mem s' (idx regs 0) = called /\
   IsInitializing (status_ (rt s') (GetDeclaringClass env called)) = true /\
   (kEnableDChecks cfg = true -> code <> GetResolutionStubArray env kUnknownMethod)).
Proof.
  rewrite enter_callee_unfold, class_init_gate_run.
  set (called_class := GetDeclaringClass env called).
  set (r := EnsureInitialized env called_class (rt s)).
  assert (Hsel : selected_code env called invoke_type r <> NULL ->
                 IsInitializing (status_ r called_class) = true).
  { unfold selected_code. fold called_class.
    destruct (status_ r called_class); cbn; congruence. }
  destruct (IsExceptionPending (rt s)).
  - rewrite dispatch_outcome_run. cbn [Z.eqb NULL].
    intros H. injection H as <- <- <-. cbn [locals]. repeat split; congruence.
  - destruct (CheckIncompatibleClassChange env called invoke_type); [discriminate|].
    cbv zeta. fold r.
    destruct (kEnableDChecks cfg && negb (IsInitializing (status_ r called_class))
              && negb (IsErroneous (status_ r called_class))); [discriminate|].
    rewrite dispatch_outcome_run.
    destruct (selected_code env called invoke_type r =? NULL) eqn:Enull.
    + intros H. injection H as <- <- <-. cbn [locals with_rt].
      repeat split; congruence.
    + apply Z.eqb_neq in Enull. specialize (Hsel Enull).
      cbn [with_rt rt mem locals]. fold called_class. rewrite Hsel.
      cbn [negb]. rewrite andb_false_r.
      destruct (kEnableDChecks cfg) eqn:Edc; cbn [andb].
      * destruct (selected_code env called invoke_type r =?
                  GetResolutionStubArray env kUnknownMethod) eqn:Estub;
          [discriminate|].
        apply Z.eqb_neq in Estub.
        intros H. injection H as <- <- <-. cbn [locals rt mem].
        rewrite Z.eqb_refl. repeat split; auto.
      * intros H. injection H as <- <- <-. cbn [locals rt mem].
        rewrite Z.eqb_refl. repeat split; auto. discriminate.
Qed.

(** The path of a returning run through lines 83-190. *)
Lemma resolve_target_inv called sp caller_sp regs caller_pc type s x s' evs :
  resolve_target env cfg called sp caller_sp regs caller_pc type s = Returned x s' evs ->
  let s1 := mkState (FinishCalleeSaveFrameSetup env sp (mem s)) (rt s) (locals s) in
  let caller := mem s1 caller_sp in
  exists invoke_type dex_method_idx refs e_resolve,
    classify_invocation env cfg type called caller (ToDexPc env caller caller_pc) s1
      = Returned (invoke_type, dex_method_idx) s1 [] /\
    refs = match target cfg with
           | i386 => []
           | _ => expected_references (mem s1) regs invoke_type
                    (discover_shorty env type called caller dex_method_idx)
           end /\
    resolve_method env type called dex_method_idx caller invoke_type
      (add_locals s1 refs) = Returned (snd x) s' e_resolve /\
    fst x = (List.length (locals s), invoke_type) /\
    evs = map AddLocalReference refs ++ e_resolve.
Proof.
  intros H s1 caller. unfold resolve_target in H.
  apply bind_Returned in H as (u & sa & ea & ea' & H1 & H & ->).
  cbv [modify] in H1. injection H1 as <- <- <-. fold s1 in H.
  apply bind_Returned in H as (cookie & sb & eb & eb' & H1 & H & ->).
  cbv [ScopedJniEnvLocalRefState_open gets] in H1. injection H1 as <- <- <-.
  apply bind_Returned in H as (caller' & sc & ec & ec' & H1 & H & ->).
  cbv [load gets] in H1. injection H1 as <- <- <-. fold caller in H.
  apply bind_Returned in H as ([invoke_type dex_method_idx] & sd & ed & ed' & H1 & H & ->).
  apply classify_invocation_inv in H1 as (-> & -> & Hclass).
  apply bind_Returned in H as (u' & s2 & ee & ee' & H1 & H & ->).
  rewrite scope_arguments_run in H1. injection H1 as <- <-.
  apply bind_Returned in H as (callee & s3 & ef & ef' & H1 & H & ->).
  cbv [ret] in H. injection H as <- <- <-.
  exists invoke_type, dex_method_idx. do 2 eexists. split; [apply Hclass|].
  split; [reflexivity|]. cbn [app fst snd locals].
  rewrite app_nil_r. subst ee. repeat split; eauto.
Qed.

(** The path of a returning run of the callee-save-frame backend. *)
Lemma trampoline_inv called sp type s code s' evs :
  UnresolvedDirectMethodTrampolineFromCode env cfg called sp type s
    = Returned code s' evs ->
  let caller := fst (call_site env cfg sp s) in
  let dex_pc := snd (call_site env cfg sp s) in
  exists invoke_type dex_method_idx refs callee s2 e_call,
    target cfg <> other_arch /\
    (forall s0, classify_invocation env cfg type called caller dex_pc s0
                = Returned (invoke_type, dex_method_idx) s0 []) /\
    refs = match target cfg with
           | i386 => []
           | _ => expected_references (FinishCalleeSaveFrameSetup env sp (mem s))
                    (regs_of cfg sp) invoke_type
                    (discover_shorty env type called caller dex_method_idx)
           end /\
    callee = (if is_unknown type
              then fst (ResolveMethod env dex_method_idx caller invoke_type (rt s))
              else called) /\
    rt s2 = (if is_unknown type
             then snd (ResolveMethod env dex_method_idx caller invoke_type (rt s))
             else rt s) /\
    locals s2 = locals s ++ refs /\
    enter_callee env cfg (regs_of cfg sp) (List.length (locals s)) invoke_type callee s2
      = Returned code s' e_call /\
    evs = map AddLocalReference refs ++
          (if is_unknown type
           then [CallResolveMethod dex_method_idx caller invoke_type] else []) ++
          e_call.
Proof.
  intros H caller dex_pc.
  unfold UnresolvedDirectMethodTrampolineFromCode, trampoline_body in H.
  apply bind_Returned in H as ([[caller_sp regs] caller_pc] & sa & ea & ea' & H1 & H & ->).
  apply decode_call_state_inv in H1 as (-> & -> & Hdec).
  apply bind_Returned in H as ([[cookie invoke_type] callee] & s2 & eb & e_call & H1 & H & ->).
  apply resolve_target_inv in H1
    as (invoke_type' & dex_method_idx & refs & e_res & Hclass & Hrefs & Hres & Hx & ->).
  cbn [fst snd] in Hres, Hx. injection Hx as -> <-.
  cbn [mem] in Hclass, Hres, Hrefs.
  rewrite resolve_method_run in Hres.
  assert (Hregs : regs = regs_of cfg sp /\ target cfg <> other_arch /\
                  FinishCalleeSaveFrameSetup env sp (mem s) caller_sp = caller /\
                  ToDexPc env (FinishCalleeSaveFrameSetup env sp (mem s) caller_sp)
                          caller_pc = dex_pc).
  { subst caller dex_pc. unfold call_site, regs_of.
    destruct (target cfg); [| |contradiction];
      injection Hdec as -> -> ->; repeat split; discriminate. }
  destruct Hregs as (-> & Harch & Hcaller & Hpc).
  rewrite Hpc, Hcaller in *. clear Hpc Hcaller.
  exists invoke_type, dex_method_idx, refs, callee, s2, e_call.
  split; [exact Harch|].
  split; [intros s0; eapply classify_invocation_inv, Hclass|].
  split; [exact Hrefs|].
  destruct (is_unknown type); injection Hres as <- <- <-;
    cbn [rt locals add_locals with_rt app]; repeat split; auto;
    now rewrite <- ?app_assoc, ?app_nil_r.
Qed.

Lemma class_init_gate_llvm_run called invoke_type s :
  class_init_gate_llvm env cfg called invoke_type s =
    if IsExceptionPending (rt s) then Returned NULL s []
    else if CheckIncompatibleClassChange env called invoke_type
    then Aborted IncompatibleClassChange
    else
      let called_class := GetDeclaringClass env called in
      let r := EnsureInitialized env called_class (rt s) in
      if kEnableDChecks cfg && negb (IsInitializing (status_ r called_class))
                             && negb (IsErroneous (status_ r called_class))
      then Aborted ClassNotErroneous
      else Returned (selected_code_llvm env called invoke_type r) (with_rt s r)
             [CallCheckIncompatibleClassChange called invoke_type;
              CallEnsureInitialized called_class].
Proof.
  unfold class_init_gate_llvm, selected_code_llvm. run.
  destruct (IsExceptionPending (rt s)); cbn [negb]; [reflexivity|].
  destruct (CheckIncompatibleClassChange env called invoke_type); cbn [negb];
    [reflexivity|].
  cbn [rt mem locals]. unfold with_rt.
  destruct (status_ _ _), (kEnableDChecks cfg), (InvokeType_eqb invoke_type kStatic);
    reflexivity.
Qed.

Lemma dispatch_outcome_llvm_run called_addr called code s :
  dispatch_outcome_llvm env cfg called_addr called code s =
    if code =? NULL then Returned code s []
    else if kEnableDChecks cfg &&
            negb (IsInitializing (status_ (rt s) (GetDeclaringClass env called)))
    then Aborted ClassNotInitializing
    else if kEnableDChecks cfg && (code =? GetResolutionStubArray env kUnknownMethod)
    then Aborted InfiniteRecursion
    else
      Returned code
        (mkState (fun a => if a =? called_addr then called else mem s a)
                 (rt s) (locals s)) [].
Proof.
  unfold dispatch_outcome_llvm. run.
  destruct (code =? NULL); cbn [negb]; [reflexivity|].
  destruct (kEnableDChecks cfg); cbn [andb]; [|reflexivity].
  destruct (IsInitializing _); cbn [negb]; [|reflexivity].
  destruct (code =? GetResolutionStubArray env kUnknownMethod); reflexivity.
Qed.

(** The path of a returning run of the ART_USE_LLVM_COMPILER backend. *)
Lemma trampoline_llvm_inv called called_addr type s code s' evs :
  UnresolvedDirectMethodTrampolineFromCode_llvm env cfg called called_addr type s
    = Returned code s' evs ->
  let caller := fst (GetCurrentMethod env) in
  let dex_pc := snd (GetCurrentMethod env) in
  exists invoke_type dex_method_idx callee r,
    (forall s0, classify_invocation env cfg type called caller dex_pc s0
                = Returned (invoke_type, dex_method_idx) s0 []) /\
    callee = (if is_unknown type
              then fst (ResolveMethod env dex_method_idx caller invoke_type (rt s))
              else called) /\
    r = (if is_unknown type
         then snd (ResolveMethod env dex_method_idx caller invoke_type (rt s))
         else rt s) /\
    locals s' = locals s /\
    evs = (if is_unknown type
           then [CallResolveMethod dex_method_idx caller invoke_type] else []) ++
          (if IsExceptionPending r then []
           else [CallCheckIncompatibleClassChange callee invoke_type;
                 CallEnsureInitialized (GetDeclaringClass env callee)]) /\
    (IsExceptionPending r = true -> code = NULL /\ rt s' = r /\ mem s' = mem s) /\
    (code <> NULL ->
     mem s' called_addr = callee /\
     IsInitializing (status_ (rt s') (GetDeclaringClass env callee)) = true /\
     (kEnableDChecks cfg = true -> code <> GetResolutionStubArray env kUnknownMethod)).
Proof.
  intros H caller dex_pc. unfold UnresolvedDirectMethodTrampolineFromCode_llvm in H.
  destruct (GetCurrentMethod env) as [caller0 dex_pc0]. cbn [fst snd] in *.
  subst caller dex_pc.
  apply bind_Returned in H as ([invoke_type dex_method_idx] & sa & ea & ea' & H1 & H & ->).
  apply classify_invocation_inv in H1 as (-> & -> & Hclass).
  apply bind_Returned in H as (callee & s2 & eb & eb' & H1 & H & ->).
  rewrite resolve_method_run in H1.
  apply bind_Returned in H as (code0 & s3 & ec & ec' & H2 & H & ->).
  rewrite class_init_gate_llvm_run in H2.
  rewrite dispatch_outcome_llvm_run in H.
  set (r := if is_unknown type
            then snd (ResolveMethod env dex_method_idx caller0 invoke_type (rt s))
            else rt s).
  exists invoke_type, dex_method_idx, callee, r.
  assert (Hs2 : callee = (if is_unknown type
              then fst (ResolveMethod env dex_method_idx caller0 invoke_type (rt s))
              else called) /\ rt s2 = r /\ locals s2 = locals s /\ mem s2 = mem s /\
              eb = (if is_unknown type
                    then [CallResolveMethod dex_method_idx caller0 invoke_type] else [])).
  { subst r. destruct (is_unknown type); injection H1 as <- <- <-; auto. }
  destruct Hs2 as (Hcallee & Hrt & Hloc & Hmem & ->).
  split; [exact Hclass|]. split; [exact Hcallee|]. split; [reflexivity|].
  rewrite Hrt in H2. clear H1.
  set (called_class := GetDeclaringClass env callee) in *.
  set (r' := EnsureInitialized env called_class r) in *.
  assert (Hsel : selected_code_llvm env callee invoke_type r' <> NULL ->
                 IsInitializing (status_ r' called_class) = true).
  { unfold selected_code_llvm. fold called_class.
    destruct (status_ r' called_class); cbn; congruence. }
  destruct (IsExceptionPending r).
  - injection H2 as <- <- <-. cbn [Z.eqb NULL] in H. injection H as <- <- <-.
    cbn [app]. rewrite app_nil_r. repeat split; auto; congruence.
  - destruct (CheckIncompatibleClassChange env callee invoke_type); [discriminate|].
    cbv zeta in H2. fold r' in H2.
    destruct (kEnableDChecks cfg && negb (IsInitializing (status_ r' called_class))
              && negb (IsErroneous (status_ r' called_class))); [discriminate|].
    injection H2 as <- <- <-.
    destruct (selected_code_llvm env callee invoke_type r' =? NULL) eqn:Enull.
    + injection H as <- <- <-. apply Z.eqb_eq in Enull.
      cbn [locals with_rt app]. repeat split; auto; congruence.
    + apply Z.eqb_neq in Enull. specialize (Hsel Enull).
      cbn [with_rt rt mem locals] in H. fold called_class in H. rewrite Hsel in H.
      cbn [negb] in H. rewrite andb_false_r in H.
      destruct (kEnableDChecks cfg) eqn:Edc; cbn [andb] in H.
      * destruct (selected_code_llvm env callee invoke_type r' =?
                  GetResolutionStubArray env kUnknownMethod) eqn:Estub;
          [discriminate|].
        apply Z.eqb_neq in Estub.
        injection H as <- <- <-. cbn [locals rt mem app].
        rewrite Z.eqb_refl. repeat split; auto; congruence.
      * injection H as <- <- <-. cbn [locals rt mem app].
        rewrite Z.eqb_refl. repeat split; auto; congruence.
Qed.

End Runs.

(** ** The class-initialization gate and the outcome, in whole runs *)

(** A run that has decoded the call state and resolved its target goes on
    with lines 191-228. *)
Lemma trampoline_from_gate env cfg called sp type s caller_sp regs caller_pc
    s0 e0 env_state invoke_type callee s2 e :
  decode_call_state env cfg sp s = Returned (caller_sp, regs, caller_pc) s0 e0 ->
  resolve_target env cfg called sp caller_sp regs caller_pc type s0
    = Returned (env_state, invoke_type, callee) s2 e ->
  UnresolvedDirectMethodTrampolineFromCode env cfg called sp type s =
    match enter_callee env cfg regs env_state invoke_type callee s2 with
    | Returned code s' e' => Returned code s' (e ++ e')
    | Aborted why => Aborted why
    end.
Proof.
  intros Hdec Hres.
  pose proof (decode_call_state_inv _ _ _ _ _ _ _ Hdec) as (-> & -> & _).
  unfold UnresolvedDirectMethodTrampolineFromCode.
  rewrite (bind_Returned_intro _ _ _ _ _ _ Hdec). cbv beta iota zeta.
  unfold trampoline_body.
  rewrite (bind_Returned_intro _ _ _ _ _ _ Hres). cbv beta iota zeta.
  now destruct (enter_callee env cfg regs env_state invoke_type callee s2).
Qed.

(** C1 (as the code has it).  Take a run that reaches the gate with no
    exception pending, and let the class of the callee be Initializing after
    [EnsureInitialized].  A static call is sent to the method's oat code,
    which the class linker hands out ([GetOatCodeFor]), and any other call
    to the method's own code pointer; the callee is written to the method
    slot, and the runtime is left exactly as [EnsureInitialized] left it:
    the trampoline changes neither the class state nor the pending
    exception.  (The entry must not be NULL, nor, with debug checks, the
    resolution stub: the trampoline asserts that it is not.) *)
Theorem initializing_class_entry :
  forall env cfg called sp type s caller_sp regs caller_pc s0 e0
         env_state invoke_type callee s2 e,
    decode_call_state env cfg sp s = Returned (caller_sp, regs, caller_pc) s0 e0 ->
    resolve_target env cfg called sp caller_sp regs caller_pc type s0
      = Returned (env_state, invoke_type, callee) s2 e ->
    let called_class := GetDeclaringClass env callee in
    let r := EnsureInitialized env called_class (rt s2) in
    let entry :=
      if InvokeType_eqb invoke_type kStatic then GetOatCodeFor env callee
      else code_ r callee in
    IsExceptionPending (rt s2) = false ->
    CheckIncompatibleClassChange env callee invoke_type = false ->
    status_ r called_class = Initializing ->
    entry <> NULL ->
    (kEnableDChecks cfg = true -> entry <> GetResolutionStubArray env kUnknownMethod) ->
    exists s' evs,
      UnresolvedDirectMethodTrampolineFromCode env cfg called sp type s
        = Returned entry s' evs /\
      rt s' = r /\ mem s' (idx regs 0) = callee.
Proof.
  intros env cfg called sp type s caller_sp regs caller_pc s0 e0
         env_state invoke_type callee s2 e Hdec Hres called_class r entry
         Hpending Hicc Hstatus Hentry Hstub.
  destruct (enter_callee_initializing env cfg regs env_state invoke_type callee s2
              Hpending Hicc Hstatus Hentry Hstub) as (s' & Hrun & Hrt & Hmem).
  rewrite (trampoline_from_gate _ _ _ _ _ _ _ _ _ _ _ _ _ _ _ _ Hdec Hres).
  fold called_class r entry in Hrun. rewrite Hrun. now eexists _, _.
Qed.

Lemma initializing_class_entry_witness :
  let env := Scenario.env 48 in
  let s := Scenario.start (Scenario.arm_call_state 0x8006) Initializing 0x4100 in
  exists s' evs,
    UnresolvedDirectMethodTrampolineFromCode env (Scenario.debug arm)
      Scenario.the_callee Scenario.sp kStaticMethod s
      = Returned Scenario.oat_code s' evs /\
    rt s' = EnsureInitialized env Scenario.the_class (rt s) /\
    mem s' (idx (Scenario.sp + 4) 0) = Scenario.the_callee.
Proof.
  intros env s.
  apply (initializing_class_entry env (Scenario.debug arm) Scenario.the_callee
           Scenario.sp kStaticMethod s (Scenario.sp + 48) (Scenario.sp + 4) 0x8006
           s [] 1%nat kStatic Scenario.the_callee
           (mkState (FinishCalleeSaveFrameSetup env Scenario.sp (mem s)) (rt s)
                    [0xA0; 0xC008; 0xC044])
           [AddLocalReference 0xC008; AddLocalReference 0xC044]).
  - reflexivity.
  - reflexivity.
  - reflexivity.
  - reflexivity.
  - reflexivity.
  - discriminate.
  - intros _. discriminate.
Defined.

(** C1 (as the design document has it) fails: the entry returned for a
    static call on an Initializing class is the method's oat code, not the
    address of a trampoline.  Here the method's own code pointer still is the
    trampoline (0x4100), the class is Initializing and stays so, no exception
    is pending, and the call is sent to 0x6000. *)
Lemma static_call_on_initializing_class_enters_oat_code :
  let env := Scenario.env 48 in
  exists o,
    Scenario.observe (Scenario.sp + 4)
      (UnresolvedDirectMethodTrampolineFromCode env (Scenario.debug arm)
         Scenario.the_callee Scenario.sp kStaticMethod
         (Scenario.start (Scenario.arm_call_state 0x8006) Initializing 0x4100))
      = Some o /\
    Scenario.class_state o = Initializing /\
    Scenario.pending o = NULL /\
    Scenario.entry o = GetOatCodeFor env Scenario.the_callee /\
    Scenario.entry o <> GetResolutionStubArray env kStaticMethod /\
    Scenario.entry o <> GetResolutionStubArray env kUnknownMethod /\
    Scenario.entry o <> GetResolutionStubArray env kOtherMethod.
Proof.
  eexists. split; [vm_compute; reflexivity|].
  cbn. repeat split; discriminate.
Qed.

(** C2 (callee-save-frame backend).  Take a run that reaches the gate.
    When the thread then carries a pending exception (resolution failed),
    or the class of the callee is Erroneous after [EnsureInitialized], the
    trampoline stores the thread's exception in [regs[0]], clears the
    pending exception and returns [art_deliver_exception_from_code]. *)
Theorem pending_exception_is_delivered :
  forall env cfg called sp type s caller_sp regs caller_pc s0 e0
         env_state invoke_type callee s2 e,
    decode_call_state env cfg sp s = Returned (caller_sp, regs, caller_pc) s0 e0 ->
    resolve_target env cfg called sp caller_sp regs caller_pc type s0
      = Returned (env_state, invoke_type, callee) s2 e ->
    let called_class := GetDeclaringClass env callee in
    let r := if IsExceptionPending (rt s2) then rt s2
             else EnsureInitialized env called_class (rt s2) in
    IsExceptionPending (rt s2) = true \/
    CheckIncompatibleClassChange env callee invoke_type = false /\
    status_ r called_class = Erroneous ->
    exists s' evs,
      UnresolvedDirectMethodTrampolineFromCode env cfg called sp type s
        = Returned (art_deliver_exception_from_code env) s' evs /\
      mem s' (idx regs 0) = GetException r /\
      rt s' = ClearException r /\
      IsExceptionPending (rt s') = false.
Proof.
  intros env cfg called sp type s caller_sp regs caller_pc s0 e0
         env_state invoke_type callee s2 e Hdec Hres called_class r H.
  destruct (enter_callee_delivers env cfg regs env_state invoke_type callee s2 H)
    as (s' & evs & Hrun & Hpost).
  rewrite (trampoline_from_gate _ _ _ _ _ _ _ _ _ _ _ _ _ _ _ _ Hdec Hres).
  rewrite Hrun. now eexists _, _.
Qed.

Lemma pending_exception_is_delivered_witness :
  let env := Scenario.env 48 in
  let s := Scenario.start (Scenario.arm_call_state 0x8012) Initialized 0x6100 in
  exists s' evs,
    UnresolvedDirectMethodTrampolineFromCode env (Scenario.debug arm)
      Scenario.resolution_method Scenario.sp kUnknownMethod s
      = Returned Scenario.deliver_exception s' evs /\
    mem s' (idx (Scenario.sp + 4) 0) = Scenario.resolution_error /\
    rt s' = ClearException
              (snd (ResolveMethod env 99 Scenario.the_caller kVirtual (rt s))) /\
    IsExceptionPending (rt s') = false.
Proof.
  intros env s.
  apply (pending_exception_is_delivered env (Scenario.debug arm)
           Scenario.resolution_method Scenario.sp kUnknownMethod s
           (Scenario.sp + 48) (Scenario.sp + 4) 0x8012 s [] 1%nat kVirtual NULL
           (mkState (FinishCalleeSaveFrameSetup env Scenario.sp (mem s))
                    (snd (ResolveMethod env 99 Scenario.the_caller kVirtual (rt s)))
                    [0xA0; 0xC008; 0xC00C; 0xC048])
           [AddLocalReference 0xC008; AddLocalReference 0xC00C;
            AddLocalReference 0xC048;
            CallResolveMethod 99 Scenario.the_caller kVirtual]).
  - reflexivity.
  - reflexivity.
  - left. reflexivity.
Defined.

(** C2 (as the design document has it) fails on the ART_USE_LLVM_COMPILER
    backend: with a resolution failure pending, that backend returns NULL,
    not the exception-delivery entry, leaves the exception pending and
    writes nothing to the call state. *)
Lemma llvm_backend_leaves_the_exception_pending :
  let env := Scenario.env 48 in
  let s := Scenario.start (Scenario.arm_call_state 0) Initialized 0x6100 in
  exists o,
    Scenario.observe 0x2000
      (UnresolvedDirectMethodTrampolineFromCode_llvm env (Scenario.debug arm)
         Scenario.resolution_method 0x2000 kUnknownMethod s) = Some o /\
    Scenario.resolved o = 1%nat /\
    Scenario.entry o = NULL /\
    Scenario.entry o <> art_deliver_exception_from_code env /\
    Scenario.pending o = Scenario.resolution_error /\
    Scenario.pending o <> NULL /\
    Scenario.method_slot o = mem s 0x2000.
Proof.
  eexists. split; [vm_compute; reflexivity|].
  cbn. repeat split; discriminate.
Qed.


(** ** The postcondition of a resolved entry *)




(** ** The invocation classifier *)

Lemma call_site_kinds_inv instr_code kind :
  In (instr_code, kind) call_site_kinds ->
  invoke_type_of_call_site instr_code = ret kind.
Proof.
  unfold call_site_kinds. cbn [In].
  intros H. repeat (destruct H as [H|H]; [injection H as <- <-; reflexivity|]).
  contradiction.
Qed.

Lemma other_opcode_aborts instr_code s :
  (forall kind, ~ In (instr_code, kind) call_site_kinds) ->
  invoke_type_of_call_site instr_code s = Aborted UnexpectedCallIntoTrampoline.
Proof.
  intros H. destruct instr_code; try reflexivity; exfalso.
  - apply (H kDirect). cbn. tauto.
  - apply (H kDirect). cbn. tauto.
  - apply (H kStatic). cbn. tauto.
  - apply (H kStatic). cbn. tauto.
  - apply (H kSuper). cbn. tauto.
  - apply (H kSuper). cbn. tauto.
  - apply (H kVirtual). cbn. tauto.
  - apply (H kVirtual). cbn. tauto.
Qed.

Lemma classify_unknown_run env cfg called caller dex_pc s :
  classify_invocation env cfg kUnknownMethod called caller dex_pc s =
    if kEnableDChecks cfg && negb (IsRuntimeMethod env called)
    then Aborted RuntimeMethodExpectation
    else if negb (dex_pc <? insns_size_in_code_units_ env caller)
    then Aborted DexPcOutOfRange
    else match invoke_type_of_call_site (Opcode env caller dex_pc) s with
         | Returned kind _ _ => Returned (kind, vB env caller dex_pc) s []
         | Aborted why => Aborted why
         end.
Proof.
  unfold classify_invocation, invoke_type_of_call_site. cbn [is_unknown]. run.
  destruct (kEnableDChecks cfg), (IsRuntimeMethod env called),
    (dex_pc <? insns_size_in_code_units_ env caller),
    (Opcode env caller dex_pc); reflexivity.
Qed.

Lemma classify_other_opcode_aborts env cfg called caller dex_pc s :
  (forall kind, ~ In (Opcode env caller dex_pc, kind) call_site_kinds) ->
  exists why,
    classify_invocation env cfg kUnknownMethod called caller dex_pc s = Aborted why.
Proof.
  intros H. rewrite classify_unknown_run, (other_opcode_aborts _ s H).
  destruct (kEnableDChecks cfg && negb (IsRuntimeMethod env called)); [now eexists|].
  destruct (negb (dex_pc <? insns_size_in_code_units_ env caller)); now eexists.
Qed.

(** C4.  With an unknown kind, the instruction at the call site decides the
    invoke type: each of the eight invoke opcodes of [call_site_kinds] gives
    its kind (once the two checks before the switch have passed), and with
    any other opcode at the call site the classifier, and with it the whole
    trampoline in either backend, aborts the process. *)
Theorem call_site_opcode_decides_invoke_type :
  forall env cfg called s,
    (forall caller dex_pc kind,
       In (Opcode env caller dex_pc, kind) call_site_kinds ->
       classify_invocation env cfg kUnknownMethod called caller dex_pc s =
         if kEnableDChecks cfg && negb (IsRuntimeMethod env called)
         then Aborted RuntimeMethodExpectation
         else if negb (dex_pc <? insns_size_in_code_units_ env caller)
         then Aborted DexPcOutOfRange
         else Returned (kind, vB env caller dex_pc) s []) /\
    (forall caller dex_pc,
       (forall kind, ~ In (Opcode env caller dex_pc, kind) call_site_kinds) ->
       classify_invocation env cfg kUnknownMethod called caller dex_pc s =
         if kEnableDChecks cfg && negb (IsRuntimeMethod env called)
         then Aborted RuntimeMethodExpectation
         else if negb (dex_pc <? insns_size_in_code_units_ env caller)
         then Aborted DexPcOutOfRange
         else Aborted UnexpectedCallIntoTrampoline) /\
    (forall sp,
       (forall kind,
          ~ In (Opcode env (fst (call_site env cfg sp s)) (snd (call_site env cfg sp s)),
                kind) call_site_kinds) ->
       exists why,
         UnresolvedDirectMethodTrampolineFromCode env cfg called sp kUnknownMethod s
           = Aborted why) /\
    (forall called_addr,
       (forall kind,
          ~ In (Opcode env (fst (GetCurrentMethod env)) (snd (GetCurrentMethod env)),
                kind) call_site_kinds) ->
       exists why,
         UnresolvedDirectMethodTrampolineFromCode_llvm env cfg called called_addr
           kUnknownMethod s = Aborted why).
Proof.
  intros env cfg called s. repeat split.
  - intros caller dex_pc kind Hin.
    rewrite classify_unknown_run, (call_site_kinds_inv _ _ Hin). reflexivity.
  - intros caller dex_pc Hother.
    rewrite classify_unknown_run, (other_opcode_aborts _ s Hother). reflexivity.
  - intros sp Hother.
    destruct (UnresolvedDirectMethodTrampolineFromCode env cfg called sp kUnknownMethod s)
      as [code s' evs|why] eqn:Hrun; [exfalso|now exists why].
    apply trampoline_inv in Hrun
      as (it & dex_method_idx & refs & callee & s2 & e_call & _ & Hclass & _).
    destruct (classify_other_opcode_aborts env cfg called _ _ s Hother) as [why Hab].
    rewrite Hclass in Hab. discriminate.
  - intros called_addr Hother.
    destruct (UnresolvedDirectMethodTrampolineFromCode_llvm env cfg called called_addr
                kUnknownMethod s) as [code s' evs|why] eqn:Hrun; [exfalso|now exists why].
    apply trampoline_llvm_inv in Hrun
      as (it & dex_method_idx & callee & r & Hclass & _).
    destruct (classify_other_opcode_aborts env cfg called _ _ s Hother) as [why Hab].
    rewrite Hclass in Hab. discriminate.
Qed.

Lemma call_site_opcode_decides_invoke_type_witness :
  let env := Scenario.env 48 in
  let s := Scenario.start (Scenario.arm_call_state 0x8014) Uninitialized 0x6100 in
  (In (Opcode env Scenario.the_caller 6, kStatic) call_site_kinds /\
   classify_invocation env (Scenario.debug arm) kUnknownMethod
     Scenario.resolution_method Scenario.the_caller 6 s = Returned (kStatic, 5) s []) /\
  (Opcode env (fst (call_site env (Scenario.debug arm) Scenario.sp s))
              (snd (call_site env (Scenario.debug arm) Scenario.sp s)) = OTHER_CODE 14 /\
   exists why,
     UnresolvedDirectMethodTrampolineFromCode env (Scenario.debug arm)
       Scenario.resolution_method Scenario.sp kUnknownMethod s = Aborted why).
Proof.
  intros env s.
  assert (Hin : In (Opcode env Scenario.the_caller 6, kStatic) call_site_kinds)
    by (cbn; tauto).
  split.
  - split; [exact Hin|].
    exact (proj1 (call_site_opcode_decides_invoke_type env (Scenario.debug arm)
                    Scenario.resolution_method s)
                 Scenario.the_caller 6 kStatic Hin).
  - split; [reflexivity|].
    apply (proj1 (proj2 (proj2 (call_site_opcode_decides_invoke_type env
                    (Scenario.debug arm) Scenario.resolution_method s))) Scenario.sp).
    intros kind Hk. cbn in Hk.
    repeat (destruct Hk as [Hk|Hk]; [discriminate|]). exact Hk.
Defined.

(** ** Scoped references *)

Lemma firstn_length_app {A} (l r : list A) : firstn (List.length l) (l ++ r) = l.
Proof.
  rewrite firstn_app, Nat.sub_diag, firstn_all. cbn [firstn]. apply app_nil_r.
Qed.

(** C6.  Every reference registered during a call has been released when
    the call returns: whatever the outcome (method code, oat code or
    exception delivery), the local reference table after the call is the
    table before the call.  The LLVM backend registers none. *)
Theorem scoped_references_are_released :
  forall env cfg called type s code s' evs,
    (forall sp,
       UnresolvedDirectMethodTrampolineFromCode env cfg called sp type s
         = Returned code s' evs ->
       locals s' = locals s) /\
    (forall called_addr,
       UnresolvedDirectMethodTrampolineFromCode_llvm env cfg called called_addr type s
         = Returned code s' evs ->
       locals s' = locals s /\ registered evs = []).
Proof.
  intros env cfg called type s code s' evs. split.
  - intros sp Hrun.
    apply trampoline_inv in Hrun
      as (it & dex_method_idx & refs & callee & s2 & e_call &
          _ & _ & _ & _ & _ & Hlocals & Hcall & _).
    apply enter_callee_inv in Hcall as (-> & _ & _).
    rewrite Hlocals. apply firstn_length_app.
  - intros called_addr Hrun.
    apply trampoline_llvm_inv in Hrun
      as (it & dex_method_idx & callee & r & _ & _ & _ & Hlocals & -> & _).
    split; [exact Hlocals|].
    destruct (is_unknown type), (IsExceptionPending r); reflexivity.
Qed.

Lemma scoped_references_are_released_witness :
  let env := Scenario.env 48 in
  let s := Scenario.start (Scenario.arm_call_state 0x8006) Uninitialized 0x6100 in
  let run :=
    UnresolvedDirectMethodTrampolineFromCode env (Scenario.debug arm)
      Scenario.resolution_method Scenario.sp kUnknownMethod s in
  registered (Scenario.returned_events run) = [0xC008; 0xC00C; 0xC048] /\
  locals (Scenario.returned_state run) = locals s.
Proof.
  intros env s run. split; [reflexivity|].
  exact (proj1 (scoped_references_are_released env (Scenario.debug arm)
                  Scenario.resolution_method kUnknownMethod s
                  (Scenario.returned_value run) (Scenario.returned_state run)
                  (Scenario.returned_events run))
               Scenario.sp eq_refl).
Defined.

Lemma scope_arguments_receiver env cfg regs type called caller dex_method_idx
    invoke_type s :
  target cfg <> i386 ->
  invoke_type <> kStatic ->
  exists rest,
    scope_arguments env cfg regs type called caller dex_method_idx invoke_type s =
      Returned tt (add_locals s (mem s (idx regs 1) :: rest))
        (AddLocalReference (mem s (idx regs 1)) :: map AddLocalReference rest).
Proof.
  intros Harch Hkind. rewrite scope_arguments_run.
  assert (Hs : InvokeType_eqb invoke_type kStatic = false)
    by (destruct invoke_type; [contradiction| | | |]; reflexivity).
  destruct (target cfg); [|contradiction|];
    unfold expected_references; rewrite Hs; eexists; reflexivity.
Qed.

(** C7 (as the code has it).  Where the reference scoper is compiled in
    (callee-save-frame backend, any target but i386), a returning call whose
    invoke type is not static has the word at [regs[1]], the first argument
    word after the method slot, registered as a scoped reference before
    anything else happens, whatever the shorty of the callee; and this is
    what [scope_arguments] does in every state. *)
Theorem receiver_is_scoped_first :
  forall env cfg called sp type s code s' evs invoke_type dex_method_idx,
    target cfg <> i386 ->
    UnresolvedDirectMethodTrampolineFromCode env cfg called sp type s
      = Returned code s' evs ->
    classify_invocation env cfg type called
      (fst (call_site env cfg sp s)) (snd (call_site env cfg sp s)) s
      = Returned (invoke_type, dex_method_idx) s [] ->
    invoke_type <> kStatic ->
    let receiver :=
      FinishCalleeSaveFrameSetup env sp (mem s) (idx (regs_of cfg sp) 1) in
    (exists rest, evs = AddLocalReference receiver :: rest) /\
    (forall regs caller s0,
       exists rest,
         scope_arguments env cfg regs type called caller dex_method_idx invoke_type s0 =
           Returned tt (add_locals s0 (mem s0 (idx regs 1) :: rest))
             (AddLocalReference (mem s0 (idx regs 1)) :: map AddLocalReference rest)).
Proof.
  intros env cfg called sp type s code s' evs invoke_type dex_method_idx
         Harch Hrun Hclass Hkind receiver.
  split; [|intros regs caller s0; now apply scope_arguments_receiver].
  apply trampoline_inv in Hrun
    as (it & idx' & refs & callee & s2 & e_call &
        _ & Hclass' & Hrefs & _ & _ & _ & _ & ->).
  rewrite Hclass' in Hclass. injection Hclass as -> ->.
  assert (Hs : InvokeType_eqb invoke_type kStatic = false)
    by (destruct invoke_type; [contradiction| | | |]; reflexivity).
  assert (Hhead : exists rest, refs = receiver :: rest).
  { rewrite Hrefs. unfold expected_references. rewrite Hs.
    destruct (target cfg); [|contradiction|]; eexists; reflexivity. }
  destruct Hhead as [rest ->]. cbn [map app]. now eexists.
Qed.

Lemma receiver_is_scoped_first_witness :
  let env := Scenario.env 48 in
  let s := Scenario.start (Scenario.arm_call_state 0x8006) Initialized 0x6100 in
  let run :=
    UnresolvedDirectMethodTrampolineFromCode env (Scenario.debug arm)
      Scenario.resolution_method Scenario.sp kUnknownMethod s in
  exists rest, Scenario.returned_events run = AddLocalReference 0xC008 :: rest.
Proof.
  intros env s run.
  apply (receiver_is_scoped_first env (Scenario.debug arm)
           Scenario.resolution_method Scenario.sp kUnknownMethod s
           (Scenario.returned_value run) (Scenario.returned_state run)
           (Scenario.returned_events run) kVirtual 5).
  - discriminate.
  - reflexivity.
  - reflexivity.
  - discriminate.
Defined.

(** C7 (as the design document has it) fails on i386: a direct, hence
    non-static, call returns with the callee's code and not one reference
    was registered, the receiver's included. *)
Lemma i386_instance_call_scopes_no_receiver :
  let env := Scenario.env 32 in
  exists o,
    Scenario.observe Scenario.sp
      (UnresolvedDirectMethodTrampolineFromCode env (Scenario.debug i386)
         Scenario.the_callee Scenario.sp kOtherMethod
         (Scenario.start (Scenario.x86_call_state 0x8006) Initialized 0x6100))
      = Some o /\
    Scenario.entry o = 0x6100 /\
    Scenario.method_slot o = Scenario.the_callee /\
    Scenario.references o = [] /\
    Scenario.returned_events
      (UnresolvedDirectMethodTrampolineFromCode env (Scenario.debug i386)
         Scenario.the_callee Scenario.sp kOtherMethod
         (Scenario.start (Scenario.x86_call_state 0x8006) Initialized 0x6100))
      = [CallCheckIncompatibleClassChange Scenario.the_callee kDirect;
         CallEnsureInitialized Scenario.the_class].
Proof.
  eexists. split; [vm_compute; reflexivity|]. cbn. repeat split.
Qed.

(** ** Resolution *)




(** ** The calling-convention decoder *)

(** C9 (as the code has it).  In a build with debug checks, the
    callee-save-frame backend aborts the process when the frame size of the
    runtime's callee-save method is not the constant of the target: 48 bytes
    on ARM, 32 bytes on x86. *)
Theorem frame_size_mismatch_aborts :
  forall env cfg called sp type s,
    kEnableDChecks cfg = true ->
    target cfg = arm /\ GetFrameSizeInBytes env <> 48 \/
    target cfg = i386 /\ GetFrameSizeInBytes env <> 32 ->
    UnresolvedDirectMethodTrampolineFromCode env cfg called sp type s
      = Aborted FrameSizeMismatch.
Proof.
  intros env cfg called sp type s Hdc Hsize.
  unfold UnresolvedDirectMethodTrampolineFromCode.
  apply bind_Aborted. unfold decode_call_state. run. rewrite Hdc.
  destruct Hsize as [[-> Hsize]|[-> Hsize]].
  - destruct (48 =? GetFrameSizeInBytes env) eqn:E; [|reflexivity].
    apply Z.eqb_eq in E. congruence.
  - destruct (32 =? GetFrameSizeInBytes env) eqn:E; [|reflexivity].
    apply Z.eqb_eq in E. congruence.
Qed.

Lemma frame_size_mismatch_aborts_witness :
  GetFrameSizeInBytes (Scenario.env 64) <> 48 /\
  UnresolvedDirectMethodTrampolineFromCode (Scenario.env 64) (Scenario.debug arm)
    Scenario.the_callee Scenario.sp kStaticMethod
    (Scenario.start (Scenario.arm_call_state 0x8006) Initialized 0x6100)
    = Aborted FrameSizeMismatch.
Proof.
  split; [discriminate|].
  apply (frame_size_mismatch_aborts (Scenario.env 64) (Scenario.debug arm)).
  - reflexivity.
  - left. split; [reflexivity|discriminate].
Defined.

(** C9 (as the design document has it) fails in a build without debug
    checks: the frame size of the runtime is 64, the constant of the ARM
    target is 48, and the trampoline goes on and returns the callee's code. *)
Lemma release_build_ignores_the_frame_size :
  let env := Scenario.env 64 in
  GetFrameSizeInBytes env <> 48 /\
  exists o,
    Scenario.observe (Scenario.sp + 4)
      (UnresolvedDirectMethodTrampolineFromCode env (Scenario.release arm)
         Scenario.the_callee Scenario.sp kStaticMethod
         (Scenario.start (Scenario.arm_call_state 0x8006) Initialized 0x6100))
      = Some o /\
    Scenario.entry o = 0x6100 /\
    Scenario.method_slot o = Scenario.the_callee.
Proof.
  split; [discriminate|].
  eexists. split; [vm_compute; reflexivity|]. cbn. repeat split.
Qed.

(** ** The i386 target *)

Lemma resolve_target_run env cfg called sp caller_sp regs caller_pc type s :
  let s1 := mkState (FinishCalleeSaveFrameSetup env sp (mem s)) (rt s) (locals s) in
  let caller := mem s1 caller_sp in
  resolve_target env cfg called sp caller_sp regs caller_pc type s =
    match classify_invocation env cfg type called caller
            (ToDexPc env caller caller_pc) s1 with
    | Aborted why => Aborted why
    | Returned (invoke_type, dex_method_idx) _ _ =>
        let refs := match target cfg with
                    | i386 => []
                    | _ => expected_references (mem s1) regs invoke_type
                             (discover_shorty env type called caller dex_method_idx)
                    end in
        match resolve_method env type called dex_method_idx caller invoke_type
                (add_locals s1 refs) with
        | Aborted why => Aborted why
        | Returned callee s3 e =>
            Returned (List.length (locals s), invoke_type, callee) s3
                     (map AddLocalReference refs ++ e)
        end
    end.
Proof.
  intros s1 caller. unfold resolve_target.
  cbv [bind modify ScopedJniEnvLocalRefState_open gets load]. fold s1. fold caller.
  destruct (classify_invocation env cfg type called caller
              (ToDexPc env caller caller_pc) s1)
    as [[invoke_type dex_method_idx] s1' e|why] eqn:Hclass; [|reflexivity].
  apply classify_invocation_inv in Hclass as (-> & -> & _).
  rewrite scope_arguments_run. cbv zeta.
  destruct (resolve_method env type called dex_method_idx caller invoke_type _)
    as [callee s3 e|why]; [|reflexivity].
  cbn [ret app locals]. now rewrite app_nil_r.
Qed.

(** The local reference table only passes through lines 191-228: references
    registered before do not change what [enter_callee] returns. *)
Lemma enter_callee_frame env cfg regs invoke_type called s refs :
  enter_callee env cfg regs (List.length (locals s)) invoke_type called
               (add_locals s refs) =
  enter_callee env cfg regs (List.length (locals s)) invoke_type called s.
Proof.
  rewrite !enter_callee_unfold, !class_init_gate_run.
  unfold add_locals, with_rt. cbn [rt mem locals].
  destruct (IsExceptionPending (rt s)).
  - rewrite !dispatch_outcome_run. cbn [Z.eqb NULL rt mem locals].
    now rewrite firstn_length_app, firstn_all.
  - destruct (CheckIncompatibleClassChange env called invoke_type); [reflexivity|].
    cbv zeta.
    destruct (kEnableDChecks cfg && _ && _); [reflexivity|].
    rewrite !dispatch_outcome_run. cbn [rt mem locals].
    destruct (_ =? NULL);
      [cbn [rt mem locals]; now rewrite firstn_length_app, firstn_all|].
    destruct (kEnableDChecks cfg && negb _); [reflexivity|].
    destruct (kEnableDChecks cfg && (_ =? _)); [reflexivity|].
    cbn [rt mem locals]. now rewrite firstn_length_app, firstn_all.
Qed.

(** C10.  On i386 the trampoline registers no reference at all, for any
    call; and from the decoded call state on it does what the ARM build
    does: with the reference registrations left out of the events, the
    body of the trampoline has the same outcome (same abort, or same entry,
    same final state and same calls of the collaborators) on both targets. *)
Theorem i386_scopes_no_references :
  forall env dchecks called sp type s,
    (forall code s' evs,
       UnresolvedDirectMethodTrampolineFromCode env (mkBuild i386 dchecks)
         called sp type s = Returned code s' evs ->
       registered evs = []) /\
    (forall caller_sp regs caller_pc,
       without_references
         (trampoline_body env (mkBuild i386 dchecks)
            called sp caller_sp regs caller_pc type s) =
       without_references
         (trampoline_body env (mkBuild arm dchecks)
            called sp caller_sp regs caller_pc type s)).
Proof.
  intros env dchecks called sp type s. split.
  - intros code s' evs Hrun.
    apply trampoline_inv in Hrun
      as (it & dex_method_idx & refs & callee & s2 & e_call &
          _ & _ & Hrefs & _ & _ & _ & Hcall & ->).
    apply enter_callee_inv in Hcall as (_ & -> & _).
    cbn [target] in Hrefs. rewrite Hrefs, !registered_app.
    destruct (is_unknown type), (IsExceptionPending (rt s2)); reflexivity.
  - intros caller_sp regs caller_pc. unfold trampoline_body.
    cbv [bind]. rewrite !resolve_target_run. cbv zeta. cbn [target mem].
    set (s1 := mkState (FinishCalleeSaveFrameSetup env sp (mem s)) (rt s) (locals s)).
    set (caller := FinishCalleeSaveFrameSetup env sp (mem s) caller_sp).
    change (classify_invocation env (mkBuild arm dchecks))
      with (classify_invocation env (mkBuild i386 dchecks)).
    destruct (classify_invocation env (mkBuild i386 dchecks) type called caller
                (ToDexPc env caller caller_pc) s1)
      as [[invoke_type dex_method_idx] s1' e|why]; [|reflexivity].
    set (refs := expected_references _ regs invoke_type _).
    change (enter_callee env (mkBuild arm dchecks))
      with (enter_callee env (mkBuild i386 dchecks)).
    rewrite !resolve_method_run.
    destruct (is_unknown type).
    + change (with_rt (add_locals s1 ?l) ?r) with (add_locals (with_rt s1 r) l).
      change (List.length (locals s))
        with (List.length (locals (with_rt s1
                (snd (ResolveMethod env dex_method_idx caller invoke_type (rt s)))))).
      cbn [rt add_locals with_rt locals mem].
      rewrite !(enter_callee_frame env (mkBuild i386 dchecks) regs invoke_type _
                 (with_rt s1 _)).
      destruct (enter_callee _ _ _ _ _ _ _) as [code s' e'|why]; [|reflexivity].
      cbn [without_references map app].
      now rewrite !collaborations_app, collaborations_references.
    + change (List.length (locals s)) with (List.length (locals s1)).
      rewrite !(enter_callee_frame env (mkBuild i386 dchecks) regs invoke_type _ s1).
      destruct (enter_callee _ _ _ _ _ _ _) as [code s' e'|why]; [|reflexivity].
      cbn [without_references map app].
      now rewrite !collaborations_app, collaborations_references.
Qed.

Lemma i386_scopes_no_references_witness :
  let run :=
    UnresolvedDirectMethodTrampolineFromCode (Scenario.env 32) (mkBuild i386 true)
      Scenario.resolution_method Scenario.sp kUnknownMethod
      (Scenario.start (Scenario.x86_call_state 0x8006) Uninitialized 0x6100) in
  Scenario.returned_value run = 0x6100 /\
  registered (Scenario.returned_events run) = [].
Proof.
  intros run. split; [reflexivity|].
  exact (proj1 (i386_scopes_no_references (Scenario.env 32) true
                  Scenario.resolution_method Scenario.sp kUnknownMethod
                  (Scenario.start (Scenario.x86_call_state 0x8006) Uninitialized 0x6100))
               (Scenario.returned_value run) (Scenario.returned_state run)
               (Scenario.returned_events run) eq_refl).
Defined.

(** * Further properties of the trampoline *)

(** ** Whole runs in closed form *)

Section ClosedForm.

Variable env : Collaborators.
Variable cfg : Build.

Lemma decode_call_state_run sp s :
  decode_call_state env cfg sp s =
    match target cfg with
    | other_arch => Aborted Unimplemented
    | a =>
        if kEnableDChecks cfg && negb (frame_size_of a =? GetFrameSizeInBytes env)
        then Aborted FrameSizeMismatch
        else Returned (sp + frame_size_of a, regs_of cfg sp,
                       mem s (idx (regs_of cfg sp) (return_pc_slot a))) s []
    end.
Proof.
  unfold decode_call_state, regs_of. run.
  destruct (target cfg), (kEnableDChecks cfg); cbn [andb frame_size_of return_pc_slot];
    try destruct (_ =? GetFrameSizeInBytes env); reflexivity.
Qed.

(** The callee-save-frame backend, from its entry to line 190. *)
Lemma trampoline_run called sp type s :
  let s1 := mkState (FinishCalleeSaveFrameSetup env sp (mem s)) (rt s) (locals s) in
  let caller := fst (call_site env cfg sp s) in
  let dex_pc := snd (call_site env cfg sp s) in
  UnresolvedDirectMethodTrampolineFromCode env cfg called sp type s =
    match target cfg with
    | other_arch => Aborted Unimplemented
    | a =>
        if kEnableDChecks cfg && negb (frame_size_of a =? GetFrameSizeInBytes env)
        then Aborted FrameSizeMismatch
        else
          match classify_invocation env cfg type called caller dex_pc s1 with
          | Aborted why => Aborted why
          | Returned (invoke_type, dex_method_idx) _ _ =>
              let refs := scoped_arguments env cfg sp type called s
                            invoke_type dex_method_idx in
              match resolve_method env type called dex_method_idx caller invoke_type
                      (add_locals s1 refs) with
              | Aborted why => Aborted why
              | Returned callee s2 e =>
                  match enter_callee env cfg (regs_of cfg sp) (List.length (locals s))
                          invoke_type callee s2 with
                  | Aborted why => Aborted why
                  | Returned code s' e' =>
                      Returned code s' ((map AddLocalReference refs ++ e) ++ e')
                  end
              end
          end
    end.
Proof.
  intros s1 caller dex_pc.
  unfold UnresolvedDirectMethodTrampolineFromCode. cbv [bind].
  rewrite decode_call_state_run.
  assert (Hsite : target cfg <> other_arch ->
    FinishCalleeSaveFrameSetup env sp (mem s) (sp + frame_size_of (target cfg)) = caller /\
    ToDexPc env caller (mem s (idx (regs_of cfg sp) (return_pc_slot (target cfg))))
      = dex_pc).
  { intros Hoth. subst caller dex_pc. unfold call_site.
    destruct (target cfg); [| |contradiction]; split; reflexivity. }
  assert (Hrefs : forall invoke_type dex_method_idx, target cfg <> other_arch ->
    match target cfg with
    | i386 => []
    | _ => expected_references (mem s1) (regs_of cfg sp) invoke_type
             (discover_shorty env type called caller dex_method_idx)
    end = scoped_arguments env cfg sp type called s invoke_type dex_method_idx).
  { reflexivity. }
  destruct (target cfg) eqn:Harch; cbv zeta; [| |reflexivity];
    (destruct (kEnableDChecks cfg && _); [reflexivity|]);
    cbn [app]; unfold trampoline_body; cbv [bind];
    rewrite resolve_target_run; cbv zeta; cbn [mem];
    (destruct Hsite as [Hcaller Hpc]; [discriminate|]);
    rewrite Hcaller, Hpc; fold s1;
    (destruct (classify_invocation env cfg type called caller dex_pc s1)
      as [[invoke_type dex_method_idx] sc ec|why]; [|reflexivity]);
    rewrite Harch;
    rewrite <- (Hrefs invoke_type dex_method_idx) by discriminate;
    (destruct (resolve_method env type called dex_method_idx caller invoke_type _)
      as [callee s2 e|why]; [|reflexivity]);
    cbv beta iota;
    (destruct (enter_callee env cfg _ _ invoke_type callee s2); reflexivity).
Qed.

End ClosedForm.

Section ClosedFormCallee.

Variable env : Collaborators.
Variable cfg : Build.

(** Lines 191-228 in closed form. *)
Lemma enter_callee_run regs env_state invoke_type called s :
  let called_class := GetDeclaringClass env called in
  let r := EnsureInitialized env called_class (rt s) in
  let code := selected_code env called invoke_type r in
  let asked := [CallCheckIncompatibleClassChange called invoke_type;
                CallEnsureInitialized called_class] in
  let deliver r0 evs :=
    Returned (art_deliver_exception_from_code env)
      (mkState (fun a => if a =? idx regs 0 then GetException r0 else mem s a)
               (ClearException r0) (firstn env_state (locals s))) evs in
  enter_callee env cfg regs env_state invoke_type called s =
    if IsExceptionPending (rt s) then deliver (rt s) []
    else if CheckIncompatibleClassChange env called invoke_type
    then Aborted IncompatibleClassChange
    else if kEnableDChecks cfg && negb (IsInitializing (status_ r called_class))
                               && negb (IsErroneous (status_ r called_class))
    then Aborted ClassNotErroneous
    else if code =? NULL then deliver r asked
    else if kEnableDChecks cfg && (code =? GetResolutionStubArray env kUnknownMethod)
    then Aborted InfiniteRecursion
    else Returned code
           (mkState (fun a => if a =? idx regs 0 then called else mem s a)
                    r (firstn env_state (locals s))) asked.
Proof.
  intros called_class r code asked deliver.
  rewrite enter_callee_unfold, class_init_gate_run.
  destruct (IsExceptionPending (rt s)).
  - rewrite dispatch_outcome_run. reflexivity.
  - destruct (CheckIncompatibleClassChange env called invoke_type); [reflexivity|].
    cbv zeta. fold called_class. fold r. fold code.
    destruct (kEnableDChecks cfg && negb (IsInitializing (status_ r called_class))
              && negb (IsErroneous (status_ r called_class))); [reflexivity|].
    rewrite dispatch_outcome_run. cbn [with_rt rt mem locals].
    destruct (code =? NULL) eqn:Enull; [reflexivity|].
    assert (Hinit : IsInitializing (status_ r called_class) = true).
    { apply Z.eqb_neq in Enull. subst code. unfold selected_code in Enull.
      fold called_class in Enull.
      destruct (status_ r called_class); cbn in *; congruence. }
    fold called_class. rewrite Hinit. cbn [negb]. rewrite andb_false_r.
    destruct (kEnableDChecks cfg && _); reflexivity.
Qed.

End ClosedFormCallee.

Section Paths.

Variable env : Collaborators.
Variable cfg : Build.

(** What the callee-save-frame backend has done when it reaches line 191:
    the callee and the runtime after resolution. *)
Lemma trampoline_path called sp type s code s' evs :
  UnresolvedDirectMethodTrampolineFromCode env cfg called sp type s
    = Returned code s' evs ->
  let caller := fst (call_site env cfg sp s) in
  let dex_pc := snd (call_site env cfg sp s) in
  exists invoke_type dex_method_idx e_call,
    (forall s0, classify_invocation env cfg type called caller dex_pc s0
                = Returned (invoke_type, dex_method_idx) s0 []) /\
    let refs := scoped_arguments env cfg sp type called s invoke_type dex_method_idx in
    let callee := resolved_callee env type called caller invoke_type dex_method_idx (rt s) in
    let r2 := resolved_runtime env type caller invoke_type dex_method_idx (rt s) in
    enter_callee env cfg (regs_of cfg sp) (List.length (locals s)) invoke_type callee
      (mkState (FinishCalleeSaveFrameSetup env sp (mem s)) r2 (locals s ++ refs))
      = Returned code s' e_call /\
    evs = map AddLocalReference refs ++
          (if is_unknown type
           then [CallResolveMethod dex_method_idx caller invoke_type] else []) ++
          e_call.
Proof.
  intros H caller dex_pc. rewrite trampoline_run in H. cbv zeta in H.
  fold caller dex_pc in H.
  assert (Hbody :
    match classify_invocation env cfg type called caller dex_pc
            (mkState (FinishCalleeSaveFrameSetup env sp (mem s)) (rt s) (locals s)) with
    | Aborted why => Aborted why
    | Returned (invoke_type, dex_method_idx) _ _ =>
        match resolve_method env type called dex_method_idx caller invoke_type
                (add_locals
                   (mkState (FinishCalleeSaveFrameSetup env sp (mem s)) (rt s) (locals s))
                   (scoped_arguments env cfg sp type called s invoke_type dex_method_idx))
        with
        | Aborted why => Aborted why
        | Returned callee s2 e =>
            match enter_callee env cfg (regs_of cfg sp) (List.length (locals s))
                    invoke_type callee s2 with
            | Aborted why => Aborted why
            | Returned code s' e' =>
                Returned code s'
                  ((map AddLocalReference
                      (scoped_arguments env cfg sp type called s invoke_type
                         dex_method_idx) ++ e) ++ e')
            end
        end
    end = Returned code s' evs).
  { destruct (target cfg); [| |discriminate];
      (destruct (kEnableDChecks cfg && _); [discriminate|exact H]). }
  clear H.
  destruct (classify_invocation env cfg type called caller dex_pc _)
    as [[invoke_type dex_method_idx] sc ec|why] eqn:Hclass; [|discriminate].
  apply classify_invocation_inv in Hclass as (_ & _ & Hclass).
  rewrite resolve_method_run in Hbody.
  unfold add_locals, with_rt in Hbody. cbn [rt mem locals] in Hbody.
  exists invoke_type, dex_method_idx.
  unfold resolved_callee, resolved_runtime.
  destruct (is_unknown type);
    (destruct (enter_callee env cfg _ _ invoke_type _ _) as [c sf e_call|why] eqn:Hcall;
       [|discriminate]);
    injection Hbody as <- <- <-; exists e_call;
    (split; [exact Hclass|]); cbv zeta; (split; [reflexivity|]);
    now rewrite <- ?app_assoc, ?app_nil_r.
Qed.

(** Lines 276-318 in closed form. *)
Lemma enter_callee_llvm_run called_addr invoke_type called s :
  let called_class := GetDeclaringClass env called in
  let r := EnsureInitialized env called_class (rt s) in
  let code := selected_code_llvm env called invoke_type r in
  let asked := [CallCheckIncompatibleClassChange called invoke_type;
                CallEnsureInitialized called_class] in
  bind (class_init_gate_llvm env cfg called invoke_type)
       (dispatch_outcome_llvm env cfg called_addr called) s =
    if IsExceptionPending (rt s) then Returned NULL s []
    else if CheckIncompatibleClassChange env called invoke_type
    then Aborted IncompatibleClassChange
    else if kEnableDChecks cfg && negb (IsInitializing (status_ r called_class))
                               && negb (IsErroneous (status_ r called_class))
    then Aborted ClassNotErroneous
    else if code =? NULL then Returned NULL (with_rt s r) asked
    else if kEnableDChecks cfg && (code =? GetResolutionStubArray env kUnknownMethod)
    then Aborted InfiniteRecursion
    else Returned code
           (mkState (fun a => if a =? called_addr then called else mem s a)
                    r (locals s)) asked.
Proof.
  intros called_class r code asked. cbv [bind].
  rewrite class_init_gate_llvm_run.
  destruct (IsExceptionPending (rt s)).
  - rewrite dispatch_outcome_llvm_run. reflexivity.
  - destruct (CheckIncompatibleClassChange env called invoke_type); [reflexivity|].
    cbv zeta. fold called_class. fold r. fold code.
    destruct (kEnableDChecks cfg && negb (IsInitializing (status_ r called_class))
              && negb (IsErroneous (status_ r called_class))); [reflexivity|].
    rewrite dispatch_outcome_llvm_run. cbn [with_rt rt mem locals].
    destruct (code =? NULL) eqn:Enull.
    { apply Z.eqb_eq in Enull. rewrite Enull. now rewrite app_nil_r. }
    assert (Hinit : IsInitializing (status_ r called_class) = true).
    { apply Z.eqb_neq in Enull. subst code. unfold selected_code_llvm in Enull.
      fold called_class in Enull.
      destruct (status_ r called_class); cbn in *; congruence. }
    fold called_class. rewrite Hinit. cbn [negb]. rewrite andb_false_r.
    destruct (kEnableDChecks cfg && _); [reflexivity|]. now rewrite app_nil_r.
Qed.

(** The ART_USE_LLVM_COMPILER backend in closed form. *)
Lemma trampoline_llvm_run called called_addr type s :
  let caller := fst (GetCurrentMethod env) in
  let dex_pc := snd (GetCurrentMethod env) in
  UnresolvedDirectMethodTrampolineFromCode_llvm env cfg called called_addr type s =
    match classify_invocation env cfg type called caller dex_pc s with
    | Aborted why => Aborted why
    | Returned (invoke_type, dex_method_idx) _ _ =>
        let callee := resolved_callee env type called caller invoke_type dex_method_idx (rt s) in
        let r2 := resolved_runtime env type caller invoke_type dex_method_idx (rt s) in
        match bind (class_init_gate_llvm env cfg callee invoke_type)
                   (dispatch_outcome_llvm env cfg called_addr callee) (with_rt s r2) with
        | Aborted why => Aborted why
        | Returned code s' e' =>
            Returned code s'
              ((if is_unknown type
                then [CallResolveMethod dex_method_idx caller invoke_type] else []) ++ e')
        end
    end.
Proof.
  intros caller dex_pc. unfold UnresolvedDirectMethodTrampolineFromCode_llvm.
  subst caller dex_pc. destruct (GetCurrentMethod env) as [caller dex_pc].
  cbn [fst snd]. unfold bind at 1.
  destruct (classify_invocation env cfg type called caller dex_pc s)
    as [[invoke_type dex_method_idx] sc ec|why] eqn:Hclass; [|reflexivity].
  apply classify_invocation_inv in Hclass as (-> & -> & _).
  cbv beta iota zeta. unfold bind at 1. rewrite resolve_method_run.
  unfold resolved_callee, resolved_runtime. cbv zeta.
  destruct (is_unknown type); cbn [app].
  - destruct (bind _ _ _); reflexivity.
  - assert (Hs : with_rt s (rt s) = s) by (now destruct s). rewrite Hs.
    destruct (bind _ _ _); reflexivity.
Qed.

End Paths.

(** ** The call state *)

(** X1.  A returning run changes the call state in one word only.  In the
    callee-save-frame backend every word other than [regs[0]] is as
    [FinishCalleeSaveFrameSetup] left it; in the LLVM backend every word
    other than [*called_addr] is as it was before the call, and when the
    backend returns NULL no word has changed at all. *)
Theorem call_state_changes_only_in_the_result_slot :
  forall env cfg called type s code s' evs,
    (forall sp,
       UnresolvedDirectMethodTrampolineFromCode env cfg called sp type s
         = Returned code s' evs ->
       forall a, a <> idx (regs_of cfg sp) 0 ->
         mem s' a = FinishCalleeSaveFrameSetup env sp (mem s) a) /\
    (forall called_addr,
       UnresolvedDirectMethodTrampolineFromCode_llvm env cfg called called_addr type s
         = Returned code s' evs ->
       (forall a, a <> called_addr -> mem s' a = mem s a) /\
       (code = NULL -> forall a, mem s' a = mem s a)).
Proof.
  intros env cfg called type s code s' evs. split.
  - intros sp Hrun a Ha. apply Z.eqb_neq in Ha.
    apply trampoline_path in Hrun as (it & dex_method_idx & e_call & _ & Hcall & _).
    cbv zeta in Hcall. rewrite enter_callee_run in Hcall. cbv zeta in Hcall.
    cbn [rt mem locals] in Hcall.
    repeat match type of Hcall with
           | (if ?b then _ else _) = _ => destruct b; try discriminate
           end;
      injection Hcall as <- <- <-; cbn [mem]; now rewrite Ha.
  - intros called_addr Hrun.
    rewrite trampoline_llvm_run in Hrun. cbv zeta in Hrun.
    destruct (classify_invocation _ _ _ _ _ _ _)
      as [[it dex_method_idx] sc ec|why]; [|discriminate].
    rewrite enter_callee_llvm_run in Hrun. cbv zeta in Hrun.
    cbn [with_rt rt mem locals] in Hrun.
    repeat match type of Hrun with
           | match (if ?b then _ else _) with _ => _ end = _ =>
               destruct b eqn:?; try discriminate
           end;
      injection Hrun as <- <- <-; cbn [mem]; split;
      try (intros a Ha; apply Z.eqb_neq in Ha; now rewrite ?Ha);
      try reflexivity.
    intros Hnull. rewrite Hnull in *. discriminate.
Qed.

Lemma call_state_changes_only_in_the_result_slot_witness :
  let env := Scenario.env 48 in
  let s := Scenario.start (Scenario.arm_call_state 0x8006) Uninitialized 0x6100 in
  let run :=
    UnresolvedDirectMethodTrampolineFromCode env (Scenario.debug arm)
      Scenario.resolution_method Scenario.sp kUnknownMethod s in
  mem (Scenario.returned_state run) (Scenario.sp + 4) = Scenario.the_callee /\
  mem (Scenario.returned_state run) (Scenario.sp + 8) = 0xC008 /\
  mem (Scenario.returned_state run) (Scenario.sp + 48) = Scenario.the_caller.
Proof.
  intros env s run.
  pose proof (proj1 (call_state_changes_only_in_the_result_slot env (Scenario.debug arm)
                  Scenario.resolution_method kUnknownMethod s
                  (Scenario.returned_value run) (Scenario.returned_state run)
                  (Scenario.returned_events run)) Scenario.sp eq_refl) as H.
  split; [reflexivity|]. split.
  - rewrite (H (Scenario.sp + 8)); [reflexivity|discriminate].
  - rewrite (H (Scenario.sp + 48)); [reflexivity|discriminate].
Defined.

(** ** More outcomes of the class-initialization gate *)

(** X2.  Take a run of the callee-save-frame backend that reaches the gate
    with no exception pending, and let the class of the callee be
    Initialized after [EnsureInitialized].  Whatever the invoke type, static
    included, the entry returned is the method's own code pointer
    ([GetCode]); the oat code is not consulted, the callee is written to
    [regs[0]] and the runtime is left as [EnsureInitialized] left it.  (The
    code pointer must not be NULL, nor, with debug checks, the resolution
    stub.) *)
Theorem initialized_class_enters_the_method_code :
  forall env cfg called sp type s caller_sp regs caller_pc s0 e0
         env_state invoke_type callee s2 e,
    decode_call_state env cfg sp s = Returned (caller_sp, regs, caller_pc) s0 e0 ->
    resolve_target env cfg called sp caller_sp regs caller_pc type s0
      = Returned (env_state, invoke_type, callee) s2 e ->
    let called_class := GetDeclaringClass env callee in
    let r := EnsureInitialized env called_class (rt s2) in
    IsExceptionPending (rt s2) = false ->
    CheckIncompatibleClassChange env callee invoke_type = false ->
    status_ r called_class = Initialized ->
    code_ r callee <> NULL ->
    (kEnableDChecks cfg = true ->
     code_ r callee <> GetResolutionStubArray env kUnknownMethod) ->
    exists s' evs,
      UnresolvedDirectMethodTrampolineFromCode env cfg called sp type s
        = Returned (code_ r callee) s' evs /\
      rt s' = r /\ mem s' (idx regs 0) = callee.
Proof.
  intros env cfg called sp type s caller_sp regs caller_pc s0 e0
         env_state invoke_type callee s2 e Hdec Hres called_class r
         Hpending Hicc Hstatus Hcode Hstub.
  rewrite (trampoline_from_gate _ _ _ _ _ _ _ _ _ _ _ _ _ _ _ _ Hdec Hres).
  rewrite enter_callee_run. cbv zeta. fold called_class. fold r.
  rewrite Hpending, Hicc, Hstatus. cbn [IsInitializing negb andb].
  rewrite andb_false_r. cbn [andb].
  assert (Hsel : selected_code env callee invoke_type r = code_ r callee).
  { unfold selected_code. fold called_class. now rewrite Hstatus. }
  rewrite Hsel.
  apply Z.eqb_neq in Hcode. rewrite Hcode.
  assert (Hok : kEnableDChecks cfg &&
                (code_ r callee =? GetResolutionStubArray env kUnknownMethod) = false).
  { destruct (kEnableDChecks cfg); [|reflexivity]. cbn [andb].
    apply Z.eqb_neq. now apply Hstub. }
  rewrite Hok. do 2 eexists. split; [reflexivity|].
  cbn [rt mem]. now rewrite Z.eqb_refl.
Qed.

Lemma initialized_class_enters_the_method_code_witness :
  let env := Scenario.env 48 in
  let s := Scenario.start (Scenario.arm_call_state 0x8006) Initialized 0x6100 in
  exists s' evs,
    UnresolvedDirectMethodTrampolineFromCode env (Scenario.debug arm)
      Scenario.the_callee Scenario.sp kStaticMethod s
      = Returned 0x6100 s' evs /\
    rt s' = EnsureInitialized env Scenario.the_class (rt s) /\
    mem s' (idx (Scenario.sp + 4) 0) = Scenario.the_callee.
Proof.
  intros env s.
  apply (initialized_class_enters_the_method_code env (Scenario.debug arm)
           Scenario.the_callee Scenario.sp kStaticMethod s
           (Scenario.sp + 48) (Scenario.sp + 4) 0x8006 s [] 1%nat kStatic
           Scenario.the_callee
           (mkState (FinishCalleeSaveFrameSetup env Scenario.sp (mem s)) (rt s)
                    [0xA0; 0xC008; 0xC044])
           [AddLocalReference 0xC008; AddLocalReference 0xC044]).
  - reflexivity.
  - reflexivity.
  - reflexivity.
  - reflexivity.
  - reflexivity.
  - discriminate.
  - intros _. discriminate.
Defined.

(** X3.  The callee-save-frame backend tells failure from success by the
    code pointer alone.  When a run reaches the gate with no exception
    pending and the class of the callee is Initialized, but the method's
    code pointer is NULL, the run returns the exception-delivery entry all
    the same: [regs[0]] receives whatever exception [EnsureInitialized] left
    on the thread, NULL if none, and the callee is not written. *)
Theorem null_code_is_delivered_as_an_exception :
  forall env cfg called sp type s caller_sp regs caller_pc s0 e0
         env_state invoke_type callee s2 e,
    decode_call_state env cfg sp s = Returned (caller_sp, regs, caller_pc) s0 e0 ->
    resolve_target env cfg called sp caller_sp regs caller_pc type s0
      = Returned (env_state, invoke_type, callee) s2 e ->
    let called_class := GetDeclaringClass env callee in
    let r := EnsureInitialized env called_class (rt s2) in
    IsExceptionPending (rt s2) = false ->
    CheckIncompatibleClassChange env callee invoke_type = false ->
    status_ r called_class = Initialized ->
    code_ r callee = NULL ->
    exists s' evs,
      UnresolvedDirectMethodTrampolineFromCode env cfg called sp type s
        = Returned (art_deliver_exception_from_code env) s' evs /\
      mem s' (idx regs 0) = GetException r /\
      rt s' = ClearException r.
Proof.
  intros env cfg called sp type s caller_sp regs caller_pc s0 e0
         env_state invoke_type callee s2 e Hdec Hres called_class r
         Hpending Hicc Hstatus Hcode.
  rewrite (trampoline_from_gate _ _ _ _ _ _ _ _ _ _ _ _ _ _ _ _ Hdec Hres).
  rewrite enter_callee_run. cbv zeta. fold called_class. fold r.
  rewrite Hpending, Hicc, Hstatus. cbn [IsInitializing negb andb].
  rewrite andb_false_r. cbn [andb].
  assert (Hsel : selected_code env callee invoke_type r = NULL).
  { unfold selected_code. fold called_class. now rewrite Hstatus. }
  rewrite Hsel. cbn [Z.eqb NULL].
  do 2 eexists. split; [reflexivity|].
  cbn [rt mem]. now rewrite Z.eqb_refl.
Qed.

Lemma null_code_is_delivered_as_an_exception_witness :
  let env := Scenario.env 48 in
  let s := Scenario.start (Scenario.arm_call_state 0x8006) Initialized NULL in
  exists s' evs,
    UnresolvedDirectMethodTrampolineFromCode env (Scenario.debug arm)
      Scenario.the_callee Scenario.sp kOtherMethod s
      = Returned Scenario.deliver_exception s' evs /\
    mem s' (idx (Scenario.sp + 4) 0) = NULL /\
    rt s' = ClearException (EnsureInitialized env Scenario.the_class (rt s)).
Proof.
  intros env s.
  apply (null_code_is_delivered_as_an_exception env (Scenario.debug arm)
           Scenario.the_callee Scenario.sp kOtherMethod s
           (Scenario.sp + 48) (Scenario.sp + 4) 0x8006 s [] 1%nat kDirect
           Scenario.the_callee
           (mkState (FinishCalleeSaveFrameSetup env Scenario.sp (mem s)) (rt s)
                    [0xA0; 0xC008; 0xC00C; 0xC048])
           [AddLocalReference 0xC008; AddLocalReference 0xC00C;
            AddLocalReference 0xC048]);
    reflexivity.
Defined.

(** X4.  The LLVM backend links lazily.  When its run reaches the gate with
    no exception pending and the class of the callee is Initialized, the
    entry returned is the method's code pointer, or, if that is NULL, the
    oat code the class linker hands out; the callee is written to
    [*called_addr].  (The entry must not be NULL, nor, with debug checks,
    the resolution stub.) *)
Theorem llvm_backend_links_lazily :
  forall env cfg called called_addr type s invoke_type dex_method_idx,
    let caller := fst (GetCurrentMethod env) in
    let dex_pc := snd (GetCurrentMethod env) in
    classify_invocation env cfg type called caller dex_pc s
      = Returned (invoke_type, dex_method_idx) s [] ->
    let callee :=
      resolved_callee env type called caller invoke_type dex_method_idx (rt s) in
    let r2 := resolved_runtime env type caller invoke_type dex_method_idx (rt s) in
    let called_class := GetDeclaringClass env callee in
    let r := EnsureInitialized env called_class r2 in
    let entry :=
      if code_ r callee =? NULL then GetOatCodeFor env callee else code_ r callee in
    IsExceptionPending r2 = false ->
    CheckIncompatibleClassChange env callee invoke_type = false ->
    status_ r called_class = Initialized ->
    entry <> NULL ->
    (kEnableDChecks cfg = true -> entry <> GetResolutionStubArray env kUnknownMethod) ->
    exists s' evs,
      UnresolvedDirectMethodTrampolineFromCode_llvm env cfg called called_addr type s
        = Returned entry s' evs /\
      mem s' called_addr = callee /\ rt s' = r.
Proof.
  intros env cfg called called_addr type s invoke_type dex_method_idx caller dex_pc
         Hclass callee r2 called_class r entry Hpending Hicc Hstatus Hentry Hstub.
  rewrite trampoline_llvm_run. cbv zeta. fold caller dex_pc. rewrite Hclass.
  fold callee. fold r2. rewrite enter_callee_llvm_run. cbv zeta.
  cbn [with_rt rt mem locals]. fold called_class. fold r.
  rewrite Hpending, Hicc, Hstatus. cbn [IsInitializing negb andb].
  rewrite andb_false_r. cbn [andb].
  assert (Hsel : selected_code_llvm env callee invoke_type r = entry).
  { unfold selected_code_llvm, lazy_link. fold called_class. now rewrite Hstatus. }
  rewrite Hsel.
  apply Z.eqb_neq in Hentry. rewrite Hentry.
  assert (Hok : kEnableDChecks cfg &&
                (entry =? GetResolutionStubArray env kUnknownMethod) = false).
  { destruct (kEnableDChecks cfg); [|reflexivity]. cbn [andb].
    apply Z.eqb_neq. now apply Hstub. }
  rewrite Hok. do 2 eexists. split; [reflexivity|].
  cbn [rt mem]. now rewrite Z.eqb_refl.
Qed.

Lemma llvm_backend_links_lazily_witness :
  let env := Scenario.env 48 in
  let s := Scenario.start (Scenario.arm_call_state 0) Initialized NULL in
  exists s' evs,
    UnresolvedDirectMethodTrampolineFromCode_llvm env (Scenario.debug arm)
      Scenario.the_callee 0x2000 kOtherMethod s
      = Returned Scenario.oat_code s' evs /\
    mem s' 0x2000 = Scenario.the_callee /\
    rt s' = EnsureInitialized env Scenario.the_class (rt s).
Proof.
  intros env s.
  apply (llvm_backend_links_lazily env (Scenario.debug arm) Scenario.the_callee
           0x2000 kOtherMethod s kDirect 5).
  - reflexivity.
  - reflexivity.
  - reflexivity.
  - reflexivity.
  - discriminate.
  - intros _. discriminate.
Defined.

(** ** Aborts *)

Lemma classify_abort_reasons env cfg type called caller dex_pc s why :
  classify_invocation env cfg type called caller dex_pc s = Aborted why ->
  why = DexPcOutOfRange \/ why = UnexpectedCallIntoTrampoline \/
  kEnableDChecks cfg = true /\ why = RuntimeMethodExpectation.
Proof.
  unfold classify_invocation, invoke_type_of_call_site. run.
  destruct (is_unknown type), (kEnableDChecks cfg);
    try destruct (IsRuntimeMethod env called); cbn [negb];
    try destruct (dex_pc <? _);
    try destruct (Opcode env caller dex_pc);
    intros H; try discriminate; injection H as <-; auto.
Qed.

(** X5.  Why a run can abort.  The assertion of line 221 (line 312) never
    fires: a non-NULL code pointer is only ever selected for a class that is
    at least Initializing.  In a build without debug checks the only aborts
    are the unimplemented target, a call site outside the caller's code
    item, an unexpected opcode at the call site and an incompatible class
    change; the LLVM backend never aborts for the target or the frame
    size. *)
Theorem abort_reasons :
  forall env cfg called type s why,
    (forall sp,
       UnresolvedDirectMethodTrampolineFromCode env cfg called sp type s
         = Aborted why ->
       why <> ClassNotInitializing /\
       (kEnableDChecks cfg = false ->
        why = Unimplemented \/ why = DexPcOutOfRange \/
        why = UnexpectedCallIntoTrampoline \/ why = IncompatibleClassChange)) /\
    (forall called_addr,
       UnresolvedDirectMethodTrampolineFromCode_llvm env cfg called called_addr type s
         = Aborted why ->
       why <> ClassNotInitializing /\ why <> Unimplemented /\
       why <> FrameSizeMismatch /\
       (kEnableDChecks cfg = false ->
        why = DexPcOutOfRange \/ why = UnexpectedCallIntoTrampoline \/
        why = IncompatibleClassChange)).
Proof.
  intros env cfg called type s why. split.
  - intros sp Hrun. rewrite trampoline_run in Hrun. cbv zeta in Hrun.
    assert (Hgoal : forall w, w = why ->
      w = Unimplemented \/ w = DexPcOutOfRange \/ w = UnexpectedCallIntoTrampoline \/
      w = IncompatibleClassChange \/
      kEnableDChecks cfg = true /\
      (w = RuntimeMethodExpectation \/ w = FrameSizeMismatch \/
       w = ClassNotErroneous \/ w = InfiniteRecursion) ->
      why <> ClassNotInitializing /\
      (kEnableDChecks cfg = false ->
       why = Unimplemented \/ why = DexPcOutOfRange \/
       why = UnexpectedCallIntoTrampoline \/ why = IncompatibleClassChange)).
    { intros w <- H. split.
      - intros ->. decompose [or and] H; discriminate.
      - intros Hdc. rewrite Hdc in H. decompose [or and] H; auto; discriminate. }
    apply (Hgoal why eq_refl). clear Hgoal.
    destruct (target cfg); [| |injection Hrun as <-; auto];
      (destruct (kEnableDChecks cfg) eqn:Hdc; cbn [andb] in Hrun;
       [destruct (negb _); [injection Hrun as <-; auto 10|]|]);
      (destruct (classify_invocation env cfg type called _ _ _)
         as [[it dex_method_idx] sc ec|w] eqn:Hclass;
       [|injection Hrun as <-; apply classify_abort_reasons in Hclass;
         rewrite Hdc in Hclass; decompose [or and] Hclass; subst; auto 10;
         discriminate]);
      rewrite resolve_method_run in Hrun;
      (destruct (is_unknown type));
      rewrite enter_callee_run in Hrun; cbv zeta in Hrun; rewrite Hdc in Hrun;
      cbn [andb] in Hrun;
      repeat match type of Hrun with
             | match (if ?b then _ else _) with _ => _ end = _ =>
                 destruct b; try discriminate
             end;
      injection Hrun as <-; auto 10.
  - intros called_addr Hrun. rewrite trampoline_llvm_run in Hrun. cbv zeta in Hrun.
    assert (Hgoal : forall w, w = why ->
      w = DexPcOutOfRange \/ w = UnexpectedCallIntoTrampoline \/
      w = IncompatibleClassChange \/
      kEnableDChecks cfg = true /\
      (w = RuntimeMethodExpectation \/
       w = ClassNotErroneous \/ w = InfiniteRecursion) ->
      why <> ClassNotInitializing /\ why <> Unimplemented /\
      why <> FrameSizeMismatch /\
      (kEnableDChecks cfg = false ->
       why = DexPcOutOfRange \/ why = UnexpectedCallIntoTrampoline \/
       why = IncompatibleClassChange)).
    { intros w <- H. repeat split.
      - intros ->. decompose [or and] H; discriminate.
      - intros ->. decompose [or and] H; discriminate.
      - intros ->. decompose [or and] H; discriminate.
      - intros Hdc. rewrite Hdc in H. decompose [or and] H; auto; discriminate. }
    apply (Hgoal why eq_refl). clear Hgoal.
    destruct (kEnableDChecks cfg) eqn:Hdc;
      (destruct (classify_invocation env cfg type called _ _ _)
         as [[it dex_method_idx] sc ec|w] eqn:Hclass;
       [|injection Hrun as <-; apply classify_abort_reasons in Hclass;
         rewrite Hdc in Hclass; decompose [or and] Hclass; subst; auto 10;
         discriminate]);
      rewrite enter_callee_llvm_run in Hrun; cbv zeta in Hrun; rewrite Hdc in Hrun;
      cbn [andb] in Hrun;
      repeat match type of Hrun with
             | match (if ?b then _ else _) with _ => _ end = _ =>
                 destruct b; try discriminate
             end;
      injection Hrun as <-; auto 10.
Qed.

Lemma abort_reasons_witness :
  let env := Scenario.env 48 in
  let s := Scenario.start (Scenario.arm_call_state 0x8014) Uninitialized 0x6100 in
  UnresolvedDirectMethodTrampolineFromCode env (Scenario.release arm)
    Scenario.resolution_method Scenario.sp kUnknownMethod s
    = Aborted UnexpectedCallIntoTrampoline /\
  UnexpectedCallIntoTrampoline <> ClassNotInitializing.
Proof.
  intros env s. split; [reflexivity|].
  exact (proj1 (proj1 (abort_reasons env (Scenario.release arm)
                  Scenario.resolution_method kUnknownMethod s
                  UnexpectedCallIntoTrampoline) Scenario.sp eq_refl)).
Defined.

Lemma classify_explicit_run env cfg type called caller dex_pc s :
  is_unknown type = false ->
  classify_invocation env cfg type called caller dex_pc s =
    if kEnableDChecks cfg && IsRuntimeMethod env called
    then Aborted RuntimeMethodExpectation
    else Returned (match type with kStaticMethod => kStatic | _ => kDirect end,
                   GetDexMethodIndex env called) s [].
Proof.
  unfold classify_invocation. intros ->. run.
  destruct (kEnableDChecks cfg), (IsRuntimeMethod env called); reflexivity.
Qed.

(** X6.  With an explicit trampoline type and without debug checks, a run
    on a supported target fails in exactly one case: no exception is
    pending at entry and the callee handed in does not fit the invoke type
    the trampoline type names; the run then aborts on the incompatible
    class change.  In every other case it returns.  Both backends. *)
Theorem explicit_kind_fails_only_on_class_change :
  forall env cfg called type s,
    is_unknown type = false ->
    kEnableDChecks cfg = false ->
    let kind := match type with kStaticMethod => kStatic | _ => kDirect end in
    let fails :=
      negb (IsExceptionPending (rt s)) &&
      CheckIncompatibleClassChange env called kind in
    (forall sp,
       target cfg <> other_arch ->
       if fails
       then UnresolvedDirectMethodTrampolineFromCode env cfg called sp type s
              = Aborted IncompatibleClassChange
       else exists code s' evs,
              UnresolvedDirectMethodTrampolineFromCode env cfg called sp type s
                = Returned code s' evs) /\
    (forall called_addr,
       if fails
       then UnresolvedDirectMethodTrampolineFromCode_llvm env cfg called called_addr
              type s = Aborted IncompatibleClassChange
       else exists code s' evs,
              UnresolvedDirectMethodTrampolineFromCode_llvm env cfg called called_addr
                type s = Returned code s' evs).
Proof.
  intros env cfg called type s Hexplicit Hdc kind fails. split.
  - intros sp Harch. rewrite trampoline_run. cbv zeta.
    rewrite (classify_explicit_run _ _ _ _ _ _ _ Hexplicit), Hdc. cbn [andb].
    rewrite resolve_method_run, Hexplicit, enter_callee_run. cbv zeta.
    cbn [add_locals rt mem locals]. rewrite Hdc. cbn [andb].
    subst fails. fold kind.
    destruct (target cfg); [| |contradiction];
      (destruct (IsExceptionPending (rt s)); cbn [negb andb];
       [now eexists _, _, _|]);
      (destruct (CheckIncompatibleClassChange env called kind); [reflexivity|]);
      (destruct (_ =? NULL); now eexists _, _, _).
  - intros called_addr. rewrite trampoline_llvm_run. cbv zeta.
    rewrite (classify_explicit_run _ _ _ _ _ _ _ Hexplicit), Hdc. cbn [andb].
    unfold resolved_callee, resolved_runtime. rewrite Hexplicit.
    rewrite enter_callee_llvm_run. cbv zeta.
    cbn [with_rt rt mem locals]. rewrite Hdc. cbn [andb].
    subst fails. fold kind.
    destruct (IsExceptionPending (rt s)); cbn [negb andb];
      [now eexists _, _, _|].
    destruct (CheckIncompatibleClassChange env called kind); [reflexivity|].
    destruct (_ =? NULL); now eexists _, _, _.
Qed.

Lemma explicit_kind_fails_only_on_class_change_witness :
  let env := Scenario.env 64 in
  let s := Scenario.start (Scenario.arm_call_state 0x8006) Erroneous 0x6100 in
  exists code s' evs,
    UnresolvedDirectMethodTrampolineFromCode env (Scenario.release arm)
      Scenario.the_callee Scenario.sp kStaticMethod s = Returned code s' evs.
Proof.
  intros env s.
  apply (proj1 (explicit_kind_fails_only_on_class_change env (Scenario.release arm)
                  Scenario.the_callee kStaticMethod s eq_refl eq_refl) Scenario.sp).
  discriminate.
Defined.

(** X7.  With an unknown kind, a call site whose dex pc is not below the
    size of the caller's code item never gets as far as the opcode: the run
    aborts, and not for an unexpected opcode, in every build and whatever
    the instruction found there.  In the LLVM backend, where the classifier
    runs first, the abort is the one of [CHECK_LT] as soon as the method
    handed in is the runtime method. *)
Theorem call_site_outside_the_code_item_aborts :
  forall env cfg called s,
    (forall sp,
       (snd (call_site env cfg sp s)
          <? insns_size_in_code_units_ env (fst (call_site env cfg sp s))) = false ->
       exists why,
         UnresolvedDirectMethodTrampolineFromCode env cfg called sp kUnknownMethod s
           = Aborted why /\
         why <> UnexpectedCallIntoTrampoline) /\
    (forall called_addr,
       (snd (GetCurrentMethod env)
          <? insns_size_in_code_units_ env (fst (GetCurrentMethod env))) = false ->
       exists why,
         UnresolvedDirectMethodTrampolineFromCode_llvm env cfg called called_addr
           kUnknownMethod s = Aborted why /\
         why <> UnexpectedCallIntoTrampoline /\
         (IsRuntimeMethod env called = true -> why = DexPcOutOfRange)).
Proof.
  intros env cfg called s. split.
  - intros sp Hpc. rewrite trampoline_run. cbv zeta.
    rewrite classify_unknown_run, Hpc. cbn [negb].
    destruct (target cfg); [| |eexists; split; [reflexivity|discriminate]];
      (destruct (kEnableDChecks cfg && negb (_ =? _));
       [eexists; split; [reflexivity|discriminate]|]);
      (destruct (kEnableDChecks cfg && negb (IsRuntimeMethod env called));
       eexists; split; try reflexivity; discriminate).
  - intros called_addr Hpc. rewrite trampoline_llvm_run. cbv zeta.
    rewrite classify_unknown_run, Hpc. cbn [negb].
    destruct (IsRuntimeMethod env called); cbn [negb]; rewrite ?andb_false_r;
      [|destruct (kEnableDChecks cfg); cbn [andb]];
      eexists; (split; [reflexivity|]); (split; [discriminate|]);
      intros; try reflexivity; discriminate.
Qed.

Lemma call_site_outside_the_code_item_aborts_witness :
  let env := Scenario.env 48 in
  let s := Scenario.start (Scenario.arm_call_state 0x8040) Initialized 0x6100 in
  snd (call_site env (Scenario.debug arm) Scenario.sp s) = 32 /\
  exists why,
    UnresolvedDirectMethodTrampolineFromCode env (Scenario.debug arm)
      Scenario.resolution_method Scenario.sp kUnknownMethod s = Aborted why /\
    why <> UnexpectedCallIntoTrampoline.
Proof.
  intros env s. split; [reflexivity|].
  apply (proj1 (call_site_outside_the_code_item_aborts env (Scenario.debug arm)
                  Scenario.resolution_method s) Scenario.sp).
  reflexivity.
Defined.

(** X8.  An incompatible class change is fatal in every build.  When a run
    of the callee-save-frame backend reaches the gate with no exception
    pending and the callee does not fit the invoke type, the process
    aborts: no entry is returned and no exception is delivered. *)
Theorem incompatible_class_change_aborts :
  forall env cfg called sp type s caller_sp regs caller_pc s0 e0
         env_state invoke_type callee s2 e,
    decode_call_state env cfg sp s = Returned (caller_sp, regs, caller_pc) s0 e0 ->
    resolve_target env cfg called sp caller_sp regs caller_pc type s0
      = Returned (env_state, invoke_type, callee) s2 e ->
    IsExceptionPending (rt s2) = false ->
    CheckIncompatibleClassChange env callee invoke_type = true ->
    UnresolvedDirectMethodTrampolineFromCode env cfg called sp type s
      = Aborted IncompatibleClassChange.
Proof.
  intros env cfg called sp type s caller_sp regs caller_pc s0 e0
         env_state invoke_type callee s2 e Hdec Hres Hpending Hicc.
  rewrite (trampoline_from_gate _ _ _ _ _ _ _ _ _ _ _ _ _ _ _ _ Hdec Hres).
  rewrite enter_callee_run. cbv zeta. now rewrite Hpending, Hicc.
Qed.

Lemma incompatible_class_change_aborts_witness :
  let env := Variants.instance_methods 48 in
  let s := Scenario.start (Scenario.arm_call_state 0x800c) Initialized 0x6100 in
  UnresolvedDirectMethodTrampolineFromCode env (Scenario.release arm)
    Scenario.resolution_method Scenario.sp kUnknownMethod s
    = Aborted IncompatibleClassChange.
Proof.
  intros env s.
  apply (incompatible_class_change_aborts env (Scenario.release arm)
           Scenario.resolution_method Scenario.sp kUnknownMethod s
           (Scenario.sp + 48) (Scenario.sp + 4) 0x800c s [] 1%nat kStatic
           Scenario.the_callee
           (mkState (FinishCalleeSaveFrameSetup env Scenario.sp (mem s)) (rt s)
                    [0xA0; 0xC008; 0xC044])
           [AddLocalReference 0xC008; AddLocalReference 0xC044;
            CallResolveMethod 5 Scenario.the_caller kStatic]);
    reflexivity.
Defined.

(** ** More on the descriptor walk *)

Section WalkSlots.

Local Open Scope nat_scope.

Lemma argument_slot_range k :
  1 <= k -> 1 <= argument_slot k <= 3 \/ 15 <= argument_slot k.
Proof.
  unfold argument_slot, register_capacity. intros Hk.
  destruct (k <=? 3) eqn:E; [apply Nat.leb_le in E|apply Nat.leb_gt in E]; lia.
Qed.

Lemma argument_slot_increasing k k' : k < k' -> argument_slot k < argument_slot k'.
Proof.
  unfold argument_slot, register_capacity. intros Hk.
  destruct (k <=? 3) eqn:E; destruct (k' <=? 3) eqn:E';
    try apply Nat.leb_le in E; try apply Nat.leb_gt in E;
    try apply Nat.leb_le in E'; try apply Nat.leb_gt in E'; lia.
Qed.

Lemma object_words_sorted tags : forall k, StronglySorted lt (object_words tags k).
Proof.
  induction tags as [|c tags IH]; intros k; cbn [object_words]; [constructor|].
  pose proof (arg_words_pos c) as Hc.
  destruct (c =? "L")%char; cbn [app]; [|apply IH].
  constructor; [apply IH|].
  apply Forall_forall. intros w Hw. apply object_words_ge in Hw. lia.
Qed.

Lemma slots_sorted ws :
  StronglySorted lt ws -> StronglySorted lt (map argument_slot ws).
Proof.
  induction 1 as [|w ws Hs IH Hall]; cbn [map]; constructor; [exact IH|].
  apply Forall_forall. intros p Hp. apply in_map_iff in Hp as (w' & <- & Hw').
  apply argument_slot_increasing. rewrite Forall_forall in Hall. now apply Hall.
Qed.

Lemma slots_in_range ws :
  Forall (fun w => 1 <= w) ws ->
  Forall (fun p => 1 <= p <= 3 \/ 15 <= p) (map argument_slot ws).
Proof.
  induction 1; cbn [map]; constructor; auto using argument_slot_range.
Qed.

Lemma object_words_from tags k j :
  j <= k -> Forall (fun w => j <= w) (object_words tags k).
Proof.
  intros Hj. apply Forall_forall. intros w Hw. apply object_words_ge in Hw. lia.
Qed.

(** X9.  The references the scoper registers are words of argument slots
    and of nothing else: each is read at a position 1 to 3 above [regs]
    (the saved R1 to R3) or at a position from 15 on (the caller's frame
    from [caller_sp[4]] on), never from [regs[0]], the callee-save area,
    the return address, the caller's method slot or the spill slots; and
    the positions are read in strictly ascending order, so that no word is
    registered twice. *)
Theorem scoper_reads_argument_slots_only :
  forall (regs : Z) (invoke_type : InvokeType) (shorty : string) (s : State),
    exists positions,
      scope_references regs invoke_type shorty s =
        Returned tt (add_locals s (read_at regs s positions))
                 (map AddLocalReference (read_at regs s positions)) /\
      Forall (fun p => 1 <= p <= 3 \/ 15 <= p) positions /\
      StronglySorted lt positions.
Proof.
  intros regs invoke_type shorty s.
  exists (scoped_positions invoke_type shorty).
  split; [apply scope_references_run|].
  rewrite scoped_positions_slots. cbv zeta.
  set (tags := tl (list_ascii_of_string shorty)).
  destruct (InvokeType_eqb invoke_type kStatic).
  - split.
    + apply slots_in_range, object_words_from. lia.
    + apply slots_sorted, object_words_sorted.
  - split.
    + constructor; [apply argument_slot_range; lia|].
      apply slots_in_range, object_words_from. lia.
    + constructor; [apply slots_sorted, object_words_sorted|].
      apply Forall_forall. intros p Hp.
      apply in_map_iff in Hp as (w & <- & Hw). apply object_words_ge in Hw.
      apply argument_slot_increasing. lia.
Qed.

(** X10.  The loop of lines 143-151, which leaves early once it has counted
    more than three words, computes the number of argument words of the
    shorty capped at the three argument registers. *)
Theorem args_in_regs_is_the_capped_word_count :
  forall tags : list ascii,
    count_args_in_regs tags 0 = Nat.min 3 (total_words tags).
Proof.
  intros tags. now rewrite count_args_in_regs_min by lia.
Qed.

(** X11.  A shorty without object parameters: a static call registers no
    reference at all, and any other call registers the receiver, the word
    at [regs[1]], and nothing else.  This covers the shorty of a method
    without parameters and the empty shorty. *)
Theorem no_object_parameters_scope_the_receiver_only :
  forall (regs : Z) (invoke_type : InvokeType) (shorty : string) (s : State),
    object_parameters shorty = 0 ->
    let refs :=
      if InvokeType_eqb invoke_type kStatic then [] else [mem s (idx regs 1)] in
    scope_references regs invoke_type shorty s =
      Returned tt (add_locals s refs) (map AddLocalReference refs).
Proof.
  intros regs invoke_type shorty s Hnone refs.
  rewrite scope_references_expected. cbv zeta.
  assert (Hwords : forall k, object_words (tl (list_ascii_of_string shorty)) k = []).
  { intros k. apply length_zero_iff_nil.
    rewrite object_words_length. exact Hnone. }
  assert (Hrefs : expected_references (mem s) regs invoke_type shorty = refs).
  { subst refs. unfold expected_references. rewrite !Hwords.
    destruct (InvokeType_eqb invoke_type kStatic); reflexivity. }
  now rewrite Hrefs.
Qed.

Lemma no_object_parameters_scope_the_receiver_only_witness :
  let s := Scenario.start (fun a => (0xB000 + a)%Z) Initialized 0%Z in
  object_parameters "DJIZ" = 0 /\
  scope_references 0x1004 kVirtual "DJIZ" s =
    Returned tt (add_locals s [0xC008%Z]) [AddLocalReference 0xC008].
Proof.
  intros s. split; [reflexivity|].
  apply (no_object_parameters_scope_the_receiver_only 0x1004%Z kVirtual "DJIZ" s).
  reflexivity.
Defined.

End WalkSlots.

(** X12.  The decoder and the scoper agree on the layout.  On both targets
    the caller's pc is the word just below the caller's frame.  On ARM, run
    on the [regs] the decoder returns, the scoper registers for an object
    parameter at argument word [k] the saved register at [regs[k]] when
    [k] is at most 3 and the word at [caller_sp[k]] of the decoder's
    [caller_sp] when it is more: the eleven words the walk skips at line 176
    are exactly those between the saved argument registers and the caller's
    outgoing arguments. *)
Theorem scoper_slots_match_the_decoded_frame :
  forall env cfg sp s caller_sp regs caller_pc s' evs,
    decode_call_state env cfg sp s = Returned (caller_sp, regs, caller_pc) s' evs ->
    caller_pc = mem s (caller_sp - kPointerSize) /\
    (target cfg = arm ->
     forall (invoke_type : InvokeType) (shorty : string) (s0 : State),
       let word (k : nat) :=
         if (k <=? 3)%nat then mem s0 (idx regs k)
         else mem s0 (caller_sp + kPointerSize * Z.of_nat k) in
       let tags := tl (list_ascii_of_string shorty) in
       let words :=
         if InvokeType_eqb invoke_type kStatic then object_words tags 1
         else 1%nat :: object_words tags 2 in
       scope_references regs invoke_type shorty s0 =
         Returned tt (add_locals s0 (map word words))
                  (map AddLocalReference (map word words))).
Proof.
  intros env cfg sp s caller_sp regs caller_pc s' evs Hdec.
  apply decode_call_state_inv in Hdec as (_ & _ & Hdec).
  destruct (target cfg); [| |contradiction]; injection Hdec as -> -> ->.
  - split; [unfold idx, kPointerSize; f_equal; lia|].
    intros _ invoke_type shorty s0 word tags words.
    rewrite scope_references_expected. cbv zeta.
    assert (Hword : forall k,
              argument_word (mem s0) (sp + kPointerSize) k = word k).
    { intros k. subst word. unfold argument_word, argument_slot, register_capacity.
      cbv beta. destruct (k <=? 3)%nat; [reflexivity|].
      f_equal. unfold idx, kPointerSize. lia. }
    assert (Hrefs : expected_references (mem s0) (sp + kPointerSize) invoke_type shorty
                    = map word words).
    { subst words. unfold expected_references. fold tags.
      destruct (InvokeType_eqb invoke_type kStatic); cbn [map].
      - apply map_ext. exact Hword.
      - rewrite Hword. apply f_equal. apply map_ext. exact Hword. }
    now rewrite Hrefs.
  - split; [unfold idx, kPointerSize; f_equal; lia|]. discriminate.
Qed.

Lemma scoper_slots_match_the_decoded_frame_witness :
  let env := Scenario.env 48 in
  let s := Scenario.start (Scenario.arm_call_state 0x8006) Initialized 0x6100 in
  0x8006 = mem s (Scenario.sp + 48 - kPointerSize) /\
  scope_references (Scenario.sp + 4) kStatic "VIIJL" s =
    Returned tt (add_locals s [mem s (Scenario.sp + 48 + kPointerSize * 5)])
             [AddLocalReference (mem s (Scenario.sp + 48 + kPointerSize * 5))].
Proof.
  intros env s.
  destruct (scoper_slots_match_the_decoded_frame env (Scenario.debug arm) Scenario.sp s
              (Scenario.sp + 48) (Scenario.sp + 4) 0x8006 s [] eq_refl) as [Hpc Hslot].
  split; [exact Hpc|]. exact (Hslot eq_refl kStatic "VIIJL"%string s).
Defined.

(** ** The order of effects *)

(** X13.  In a returning run of the callee-save-frame backend every
    reference is registered before the first call of a collaborator: the
    events of the run are its registrations followed by its calls of
    [ResolveMethod], [CheckIncompatibleClassChange] and [EnsureInitialized],
    so the object arguments are scoped while resolution and class
    initialization run. *)
Theorem references_are_registered_before_resolution :
  forall env cfg called sp type s code s' evs,
    UnresolvedDirectMethodTrampolineFromCode env cfg called sp type s
      = Returned code s' evs ->
    evs = map AddLocalReference (registered evs) ++ collaborations evs.
Proof.
  intros env cfg called sp type s code s' evs Hrun.
  apply trampoline_path in Hrun as (it & dex_method_idx & e_call & _ & Hcall & ->).
  cbv zeta in Hcall. apply enter_callee_inv in Hcall as (_ & -> & _).
  rewrite !registered_app, !collaborations_app, registered_references,
    collaborations_references.
  cbn [rt].
  destruct (is_unknown type), (IsExceptionPending _); cbn; now rewrite ?app_nil_r.
Qed.

Lemma references_are_registered_before_resolution_witness :
  let env := Scenario.env 48 in
  let s := Scenario.start (Scenario.arm_call_state 0x8006) Uninitialized 0x6100 in
  Scenario.returned_events
    (UnresolvedDirectMethodTrampolineFromCode env (Scenario.debug arm)
       Scenario.resolution_method Scenario.sp kUnknownMethod s)
  = map AddLocalReference [0xC008; 0xC00C; 0xC048] ++
    [CallResolveMethod 5 Scenario.the_caller kVirtual;
     CallCheckIncompatibleClassChange Scenario.the_callee kVirtual;
     CallEnsureInitialized Scenario.the_class].
Proof.
  intros env s.
  exact (references_are_registered_before_resolution env (Scenario.debug arm)
           Scenario.resolution_method Scenario.sp kUnknownMethod s _ _ _ eq_refl).
Defined.

(** X14.  With an unknown kind the collaborators are called in a fixed
    order and with matching arguments.  [ResolveMethod] is asked first, with
    the method index and the invoke type decoded at the call site; if it
    leaves an exception pending, nothing else is asked; otherwise the method
    it returned is checked against the same invoke type and the declaring
    class of that method is initialized.  Both backends. *)
Theorem unknown_kind_protocol :
  forall env cfg called s code s' evs,
    let protocol caller dex_pc :=
      exists invoke_type dex_method_idx,
        classify_invocation env cfg kUnknownMethod called caller dex_pc s
          = Returned (invoke_type, dex_method_idx) s [] /\
        let resolved := ResolveMethod env dex_method_idx caller invoke_type (rt s) in
        collaborations evs =
          CallResolveMethod dex_method_idx caller invoke_type ::
          (if IsExceptionPending (snd resolved) then []
           else [CallCheckIncompatibleClassChange (fst resolved) invoke_type;
                 CallEnsureInitialized (GetDeclaringClass env (fst resolved))]) in
    (forall sp,
       UnresolvedDirectMethodTrampolineFromCode env cfg called sp kUnknownMethod s
         = Returned code s' evs ->
       protocol (fst (call_site env cfg sp s)) (snd (call_site env cfg sp s))) /\
    (forall called_addr,
       UnresolvedDirectMethodTrampolineFromCode_llvm env cfg called called_addr
         kUnknownMethod s = Returned code s' evs ->
       protocol (fst (GetCurrentMethod env)) (snd (GetCurrentMethod env))).
Proof.
  intros env cfg called s code s' evs protocol. subst protocol. split.
  - intros sp Hrun.
    apply trampoline_path in Hrun as (it & dex_method_idx & e_call & Hclass & Hcall & ->).
    cbv zeta in Hcall. apply enter_callee_inv in Hcall as (_ & -> & _).
    exists it, dex_method_idx. split; [apply Hclass|].
    cbv zeta. unfold resolved_callee, resolved_runtime. cbn [is_unknown rt].
    rewrite !collaborations_app, collaborations_references. cbn [app].
    now destruct (IsExceptionPending _).
  - intros called_addr Hrun.
    apply trampoline_llvm_inv in Hrun
      as (it & dex_method_idx & callee & r & Hclass & -> & -> & _ & -> & _).
    exists it, dex_method_idx. split; [apply Hclass|].
    cbv zeta. cbn [is_unknown app collaborations].
    now destruct (IsExceptionPending _).
Qed.

Lemma unknown_kind_protocol_witness :
  let env := Scenario.env 48 in
  let s := Scenario.start (Scenario.arm_call_state 0x8012) Initialized 0x6100 in
  exists invoke_type dex_method_idx,
    classify_invocation env (Scenario.debug arm) kUnknownMethod
      Scenario.resolution_method Scenario.the_caller 9 s
      = Returned (invoke_type, dex_method_idx) s [] /\
    collaborations
      (Scenario.returned_events
         (UnresolvedDirectMethodTrampolineFromCode env (Scenario.debug arm)
            Scenario.resolution_method Scenario.sp kUnknownMethod s))
    = [CallResolveMethod dex_method_idx Scenario.the_caller invoke_type].
Proof.
  intros env s.
  destruct (proj1 (unknown_kind_protocol env (Scenario.debug arm)
                     Scenario.resolution_method s _ _ _) Scenario.sp eq_refl)
    as (invoke_type & dex_method_idx & Hclass & Hevs).
  exists invoke_type, dex_method_idx. split; [exact Hclass|].
  injection Hclass as <- <-. exact Hevs.
Defined.

(** ** The two ways to return *)

(** X15.  A returning run of the callee-save-frame backend ends in one of
    two ways and nothing in between.  Either the callee is in [regs[0]] and
    the runtime is exactly as the collaborators left it, pending exception
    included; or the entry is the exception-delivery entry, the thread's
    exception is in [regs[0]] and the only change the trampoline made to
    the runtime is to clear it.  Class states and code pointers are never
    changed by the trampoline itself.  The LLVM backend never changes the
    runtime at all. *)
Theorem returns_resolved_or_delivers :
  forall env cfg called type s code s' evs,
    let after caller invoke_type dex_method_idx :=
      let callee :=
        resolved_callee env type called caller invoke_type dex_method_idx (rt s) in
      let r2 := resolved_runtime env type caller invoke_type dex_method_idx (rt s) in
      (callee,
       if IsExceptionPending r2 then r2
       else EnsureInitialized env (GetDeclaringClass env callee) r2) in
    (forall sp,
       UnresolvedDirectMethodTrampolineFromCode env cfg called sp type s
         = Returned code s' evs ->
       exists invoke_type dex_method_idx,
         classify_invocation env cfg type called
           (fst (call_site env cfg sp s)) (snd (call_site env cfg sp s)) s
           = Returned (invoke_type, dex_method_idx) s [] /\
         let (callee, r) :=
           after (fst (call_site env cfg sp s)) invoke_type dex_method_idx in
         (mem s' (idx (regs_of cfg sp) 0) = callee /\ rt s' = r \/
          code = art_deliver_exception_from_code env /\
          mem s' (idx (regs_of cfg sp) 0) = GetException r /\
          rt s' = ClearException r) /\
         status_ (rt s') = status_ r /\ code_ (rt s') = code_ r) /\
    (forall called_addr,
       UnresolvedDirectMethodTrampolineFromCode_llvm env cfg called called_addr type s
         = Returned code s' evs ->
       exists invoke_type dex_method_idx,
         classify_invocation env cfg type called
           (fst (GetCurrentMethod env)) (snd (GetCurrentMethod env)) s
           = Returned (invoke_type, dex_method_idx) s [] /\
         rt s' = snd (after (fst (GetCurrentMethod env)) invoke_type dex_method_idx)).
Proof.
  intros env cfg called type s code s' evs after. subst after. split.
  - intros sp Hrun.
    apply trampoline_path in Hrun as (it & dex_method_idx & e_call & Hclass & Hcall & _).
    exists it, dex_method_idx. split; [apply Hclass|].
    cbv zeta in Hcall |- *. rewrite enter_callee_run in Hcall. cbv zeta in Hcall.
    cbn [rt mem locals] in Hcall.
    set (callee := resolved_callee env type called _ it dex_method_idx (rt s)) in *.
    set (r2 := resolved_runtime env type _ it dex_method_idx (rt s)) in *.
    destruct (IsExceptionPending r2).
    + injection Hcall as <- <- <-. cbn [rt mem]. rewrite Z.eqb_refl.
      split; [right|]; auto.
    + destruct (CheckIncompatibleClassChange env callee it); [discriminate|].
      destruct (kEnableDChecks cfg && _ && _); [discriminate|].
      destruct (_ =? NULL).
      * injection Hcall as <- <- <-. cbn [rt mem]. rewrite Z.eqb_refl.
        split; [right|]; auto.
      * destruct (kEnableDChecks cfg && _); [discriminate|].
        injection Hcall as <- <- <-. cbn [rt mem]. rewrite Z.eqb_refl.
        split; [left|]; auto.
  - intros called_addr Hrun.
    rewrite trampoline_llvm_run in Hrun. cbv zeta in Hrun.
    destruct (classify_invocation _ _ _ _ _ _ _)
      as [[it dex_method_idx] sc ec|why] eqn:Hclass; [|discriminate].
    apply classify_invocation_inv in Hclass as (-> & -> & Hclass).
    exists it, dex_method_idx. split; [reflexivity|].
    rewrite enter_callee_llvm_run in Hrun. cbv zeta in Hrun.
    cbn [with_rt rt mem locals fst snd] in Hrun |- *.
    set (callee := resolved_callee env type called _ it dex_method_idx (rt s)) in *.
    set (r2 := resolved_runtime env type _ it dex_method_idx (rt s)) in *.
    destruct (IsExceptionPending r2).
    + now injection Hrun as <- <- <-.
    + destruct (CheckIncompatibleClassChange env callee it); [discriminate|].
      destruct (kEnableDChecks cfg && _ && _); [discriminate|].
      destruct (_ =? NULL); [now injection Hrun as <- <- <-|].
      destruct (kEnableDChecks cfg && _); [discriminate|].
      now injection Hrun as <- <- <-.
Qed.

Lemma returns_resolved_or_delivers_witness :
  let env := Scenario.env 48 in
  let s := Scenario.start (Scenario.arm_call_state 0x8006) Erroneous 0x6100 in
  let run :=
    UnresolvedDirectMethodTrampolineFromCode env (Scenario.debug arm)
      Scenario.the_callee Scenario.sp kOtherMethod s in
  status_ (rt (Scenario.returned_state run)) Scenario.the_class = Erroneous /\
  code_ (rt (Scenario.returned_state run)) Scenario.the_callee = 0x6100.
Proof.
  intros env s run.
  destruct (proj1 (returns_resolved_or_delivers env (Scenario.debug arm)
                     Scenario.the_callee kOtherMethod s
                     (Scenario.returned_value run) (Scenario.returned_state run)
                     (Scenario.returned_events run)) Scenario.sp eq_refl)
    as (invoke_type & dex_method_idx & Hclass & H).
  injection Hclass as <- <-. destruct H as (_ & Hstatus & Hcode).
  rewrite Hstatus, Hcode. split; reflexivity.
Defined.
